(** * verachat-backend: the feed, like-toggle and post-mutation handlers

    A shallow embedding of [api/index.js].  The Express handlers are
    functions over an explicit store state; the Supabase client they call is
    modelled by the [Store] module (tables as lists of typed rows, the query
    builder's [eq], [order], [single], [maybeSingle] and head counts), and
    every call of the client may be answered with an error result, chosen by
    the environment. *)

From Stdlib Require Import ZArith Ascii String.
From stdpp Require Import base decidable option list numbers strings gmap sorting pretty.

Local Open Scope string_scope.
Local Open Scope list_scope.

(** ** JavaScript values and strings *)

Module JS.

(** Strings are sequences of code units; a [string] here stands for a
    JavaScript string whose code units are below 256.  In that range
    [String.prototype.trim] strips TAB, LF, VT, FF, CR, SP and NBSP. *)
Definition is_white_space (c : ascii) : bool :=
  let n := N_of_ascii c in
  ((9 <=? n) && (n <=? 13) || (n =? 32) || (n =? 160))%N.

Fixpoint trim_start (s : string) : string :=
  match s with
  | EmptyString => EmptyString
  | String c r => if is_white_space c then trim_start r else s
  end.

Definition is_empty (s : string) : bool :=
  match s with EmptyString => true | String _ _ => false end.

Fixpoint trim_end (s : string) : string :=
  match s with
  | EmptyString => EmptyString
  | String c r =>
      let r' := trim_end r in
      if is_white_space c && is_empty r' then EmptyString else String c r'
  end.

(** [s.trim()] *)
Definition trim (s : string) : string := trim_end (trim_start s).

(** The values a parsed JSON body field can hold.  [JNum] stands for a
    number (JSON has no NaN), [JObject] for any object or array. *)
Inductive value :=
| JUndefined
| JNull
| JBool (b : bool)
| JNum (z : Z)
| JStr (s : string)
| JObject.

(** ToBoolean *)
Definition truthy (v : value) : bool :=
  match v with
  | JUndefined | JNull => false
  | JBool b => b
  | JNum z => negb (z =? 0)%Z
  | JStr s => negb (is_empty s)
  | JObject => true
  end.

(** [v.trim()]: only strings have the method; on [undefined] and [null]
    the property access throws, on the other values the call does. *)
Definition call_trim (v : value) : option string :=
  match v with
  | JStr s => Some (trim s)
  | _ => None
  end.

End JS.

(** ** Rows of the four tables *)

(** Row ids are the store's opaque keys; a [:id] path parameter is the id it
    denotes.  User ids are the identity service's, and come in as strings. *)

Definition row_id := N.
Definition user_id := string.
Bind Scope N_scope with row_id.
Bind Scope string_scope with user_id.

Module Profile.
Record t := mk { id : user_id; username : option string; avatar_url : option string }.
End Profile.

Module Post.
Record t := mk {
  id : row_id;
  content : string;
  image_url : option string;
  created_at : Z;
  user_id : user_id
}.
End Post.

Module Like.
Record t := mk { id : row_id; post_id : row_id; user_id : user_id }.
End Like.

Module Comment.
Record t := mk {
  id : row_id;
  content : string;
  created_at : Z;
  user_id : user_id;
  post_id : row_id
}.
End Comment.

Module Db.
Record t := mk {
  posts : list Post.t;
  likes : list Like.t;
  comments : list Comment.t;
  profiles : list Profile.t;
  (** keys of the objects in the storage bucket 'post-images' *)
  images : list string
}.

Definition with_posts (ps : list Post.t) (db : t) : t :=
  mk ps (likes db) (comments db) (profiles db) (images db).
Definition with_likes (ls : list Like.t) (db : t) : t :=
  mk (posts db) ls (comments db) (profiles db) (images db).
Definition with_comments (cs : list Comment.t) (db : t) : t :=
  mk (posts db) (likes db) cs (profiles db) (images db).
Definition with_images (ns : list string) (db : t) : t :=
  mk (posts db) (likes db) (comments db) (profiles db) ns.
End Db.

(** ** The store client *)

Module Store.

(** What every call of the client resolves to: [{ data, error, count }].
    The client does not throw; a failed call has [error] set and [data]
    and [count] null, which is what the handlers' [if (error) throw error]
    tests. *)
Record response (D : Type) := mk_response {
  data : option D;
  error : option string;
  count : option nat
}.
Arguments mk_response {D} _ _ _.
Arguments data {D} _.
Arguments error {D} _.
Arguments count {D} _.

Definition ok {D} (d : D) : response D := mk_response (Some d) None None.
Definition empty {D} : response D := mk_response None None None.
Definition failed {D} (e : string) : response D := mk_response None (Some e) None.

(** [.eq(column, v)] *)
Definition eq_ {A V} `{EqDecision V} (column : A → V) (v : V) (rows : list A) : list A :=
  filter (λ r, column r = v) rows.

(** [.order('created_at', { ascending })] *)
Definition asc {A} (key : A → Z) : relation A := λ a b, (key a ≤ key b)%Z.
Definition desc {A} (key : A → Z) : relation A := λ a b, (key b ≤ key a)%Z.

#[global] Instance asc_dec {A} (key : A → Z) a b : Decision (asc key a b) :=
  decide (key a ≤ key b)%Z.
#[global] Instance desc_dec {A} (key : A → Z) a b : Decision (desc key a b) :=
  decide (key b ≤ key a)%Z.

Definition order {A} (key : A → Z) (ascending : bool) (rows : list A) : list A :=
  if ascending then merge_sort (asc key) rows else merge_sort (desc key) rows.

(** [.select('*', { count: 'exact', head: true })]: no rows, their number. *)
Definition head_count {A} (rows : list A) : response unit :=
  mk_response None None (Some (length rows)).

(** [.single()]: exactly one row, otherwise an error. *)
Definition single {A} (rows : list A) : response A :=
  match rows with
  | [r] => ok r
  | _ => failed "JSON object requested, multiple (or no) rows returned"
  end.

(** [.maybeSingle()]: no row is null data without an error, one row is
    that row, several rows are an error with null data. *)
Definition maybeSingle {A} (rows : list A) : response A :=
  match rows with
  | [] => empty
  | [r] => ok r
  | _ => failed "JSON object requested, multiple (or no) rows returned"
  end.

(** The id the store assigns to an inserted row. *)
Definition fresh_id (ids : list row_id) : row_id := N.succ (foldr N.max 0%N ids).

End Store.

(** ** Rows as the handlers select them, and what they answer *)

(** The embedded [profiles ( username, avatar_url )] of a select. *)
Module Author.
Record t := mk { username : option string; avatar_url : option string }.
End Author.

(** A row of the feed query. *)
Module PostRow.
Record t := mk {
  id : row_id;
  content : string;
  image_url : option string;
  created_at : Z;
  user_id : user_id;
  profiles : option Author.t
}.
End PostRow.

(** A row of the comment queries. *)
Module CommentRow.
Record t := mk {
  id : row_id;
  content : string;
  created_at : Z;
  user_id : user_id;
  profiles : option Author.t
}.
End CommentRow.

(** [{ ...post, author, avatar_url, like_count, comment_count, liked_by_me }];
    the spread fields are kept together in [post]. *)
Module EnrichedPost.
Record t := mk {
  post : PostRow.t;
  author : string;
  avatar_url : option string;
  like_count : nat;
  comment_count : nat;
  liked_by_me : bool
}.
End EnrichedPost.

(** [{ ...c, author, avatar_url }] *)
Module EnrichedComment.
Record t := mk {
  comment : CommentRow.t;
  author : string;
  avatar_url : option string
}.
End EnrichedComment.

(** The file multer hands to the upload handler. *)
Module File.
Record t := mk { originalname : string; mimetype : string; buffer : string }.
End File.

Inductive json :=
| Error (error : string)
| Feed (posts : list EnrichedPost.t)
| PostJson (data : option Post.t)
| Success
| Liked (liked : bool)
| Comments (comments : list EnrichedComment.t)
| CommentJson (data : EnrichedComment.t).

Record HttpResponse := Res { status : nat; body : json }.

(** ** The environment of a request *)

(** The calls of the store client the handlers make, with the arguments
    that identify them.  A request runs against the store alone: what other
    requests do between two of its calls is not modelled. *)
Inductive call :=
| SelectPosts
| CountLikes (post : row_id)
| CountComments (post : row_id)
| SelectLike (post : row_id) (user : user_id)
| InsertPost (user : user_id)
| UploadImage (fileName : string)
| DeletePost (id : row_id) (user : user_id)
| SelectOwnPost (id : row_id) (user : user_id)
| UpdatePost (id : row_id)
| DeleteLike (id : row_id)
| InsertLike (post : row_id) (user : user_id)
| SelectComments (post : row_id)
| InsertComment (post : row_id) (user : user_id).

Record Env := mk_env {
  (** the calls the store answers with an error result *)
  fails : call → bool;
  (** [Date.now()] *)
  date_now : Z;
  (** the store's clock, the default of [created_at] *)
  db_now : Z;
  (** [getPublicUrl(fileName).data.publicUrl] *)
  publicUrl : string → string;
  (** the key under which the storage service keeps an object uploaded for
      a path: the client puts the path unescaped into the request URL, so
      the key need not be the path itself *)
  objectKey : string → string
}.

(** ** Handler bodies: store state and exceptions *)

Inductive step (A : Type) :=
| Val (a : A)
| Throw (e : string).
Arguments Val {A} _.
Arguments Throw {A} _.

Definition M (A : Type) : Type := Db.t → Db.t * step A.

Definition ret {A} (a : A) : M A := λ db, (db, Val a).
Definition throw {A} (e : string) : M A := λ db, (db, Throw e).
Definition bind {A B} (m : M A) (k : A → M B) : M B :=
  λ db, match m db with
        | (db', Val a) => k a db'
        | (db', Throw e) => (db', Throw e)
        end.

Notation "'let*' x := m 'in' k" := (bind m (λ x, k))
  (at level 10, x name, m at level 100, k at level 200).

(** [Promise.all(xs.map(f))]: the results in the order of [xs]; the first
    callback that throws rejects the whole. *)
Fixpoint all {A B} (f : A → M B) (xs : list A) : M (list B) :=
  match xs with
  | [] => ret []
  | x :: xs' =>
      let* y := f x in
      let* ys := all f xs' in
      ret (y :: ys)
  end.

(** [try { ... } catch (err) { res.status(500).json({ error: msg }) }] *)
Definition try_catch (msg : string) (m : M HttpResponse) (db : Db.t) : Db.t * HttpResponse :=
  match m db with
  | (db', Val r) => (db', r)
  | (db', Throw _) => (db', Res 500 (Error msg))
  end.

Definition TypeError : string := "TypeError".

(** ** The handlers of [api/index.js] *)

(** The handlers behind [authenticate] take [req.user.id], which that
    middleware has set, as [req_user]. *)

Section Handlers.

Context (env : Env).

(** [await supabaseAdmin...]: the call [c], which does [run] on the store
    unless the environment makes it fail; a failed call leaves the store
    as it is. *)
Definition await {D} (c : call) (run : Db.t → Db.t * Store.response D) : M (Store.response D) :=
  λ db, if fails env c
        then (db, Val (Store.failed "upstream failure"))
        else let '(db', r) := run db in (db', Val r).

(** a call that only reads *)
Definition query {D} (c : call) (run : Db.t → Store.response D) : M (Store.response D) :=
  await c (λ db, (db, run db)).

(** [profiles!..._user_id_fkey ( username, avatar_url )] *)
Definition embed_profile (db : Db.t) (user : user_id) : option Author.t :=
  (λ pr, Author.mk (Profile.username pr) (Profile.avatar_url pr))
    <$> head (Store.eq_ Profile.id user (Db.profiles db)).

Definition post_row (db : Db.t) (p : Post.t) : PostRow.t :=
  PostRow.mk (Post.id p) (Post.content p) (Post.image_url p) (Post.created_at p)
    (Post.user_id p) (embed_profile db (Post.user_id p)).

Definition comment_row (db : Db.t) (c : Comment.t) : CommentRow.t :=
  CommentRow.mk (Comment.id c) (Comment.content c) (Comment.created_at c)
    (Comment.user_id c) (embed_profile db (Comment.user_id c)).

(** [s || d] on a string or null *)
Definition or_string (s : option string) (d : string) : string :=
  match s with
  | Some x => if JS.is_empty x then d else x
  | None => d
  end.

(** [s || null] *)
Definition or_null (s : option string) : option string :=
  match s with
  | Some x => if JS.is_empty x then None else Some x
  | None => None
  end.

(** [profiles?.username || 'Unknown'] *)
Definition author_of (profiles : option Author.t) : string :=
  or_string (profiles ≫= Author.username) "Unknown".

(** [profiles?.avatar_url || null] *)
Definition avatar_of (profiles : option Author.t) : option string :=
  or_null (profiles ≫= Author.avatar_url).

(** [count || 0] *)
Definition or_zero (count : option nat) : nat :=
  match count with
  | Some n => n
  | None => 0
  end.

(** *** GET /api/posts *)

(** [req.query.user_id || null] *)
Definition currentUserId (req_query : gmap string string) : option user_id :=
  or_null (req_query !! "user_id").

(** the callback of [posts.map] *)
Definition enrich (currentUserId : option user_id) (post : PostRow.t) : M EnrichedPost.t :=
  let* likes :=
    query (CountLikes (PostRow.id post)) (λ db,
      Store.head_count (Store.eq_ Like.post_id (PostRow.id post) (Db.likes db))) in
  let likeCount := Store.count likes in
  let* comments :=
    query (CountComments (PostRow.id post)) (λ db,
      Store.head_count (Store.eq_ Comment.post_id (PostRow.id post) (Db.comments db))) in
  let commentCount := Store.count comments in
  let* likedByMe :=
    match currentUserId with
    | Some viewer =>
        let* mine :=
          query (SelectLike (PostRow.id post) viewer) (λ db,
            Store.maybeSingle
              (Store.eq_ Like.user_id viewer
                 (Store.eq_ Like.post_id (PostRow.id post) (Db.likes db)))) in
        let myLike := Store.data mine in
        ret (bool_decide (is_Some myLike))
    | None => ret false
    end in
  ret (EnrichedPost.mk post
         (author_of (PostRow.profiles post))
         (avatar_of (PostRow.profiles post))
         (or_zero likeCount)
         (or_zero commentCount)
         likedByMe).

Definition get_api_posts (req_query : gmap string string) : Db.t → Db.t * HttpResponse :=
  try_catch "Failed to fetch posts" (
    let currentUserId := currentUserId req_query in
    let* r :=
      query SelectPosts (λ db,
        Store.ok (Store.order PostRow.created_at false (post_row db <$> Db.posts db))) in
    match Store.error r with
    | Some error => throw error
    | None =>
        match Store.data r with
        | Some posts =>
            let* enriched := all (enrich currentUserId) posts in
            ret (Res 200 (Feed enriched))
        | None => throw TypeError
        end
    end).

(** *** POST /api/posts *)

(** [.insert({ user_id, content, image_url }).select().single()]: the
    store assigns [id] and [created_at]. *)
Definition insert_post (user : user_id) (content : string) (image_url : option string)
    (db : Db.t) : Db.t * Store.response Post.t :=
  let row := Post.mk (Store.fresh_id (Post.id <$> Db.posts db)) content image_url
               (db_now env) user in
  (Db.with_posts (Db.posts db ++ [row]) db, Store.single [row]).

Definition post_api_posts (req_user : user_id) (content : JS.value) : Db.t → Db.t * HttpResponse :=
  try_catch "Failed to create post" (
    if negb (JS.truthy content) then ret (Res 400 (Error "Content is required"))
    else
      match JS.call_trim content with
      | None => throw TypeError
      | Some trimmed =>
          if JS.is_empty trimmed then ret (Res 400 (Error "Content is required"))
          else
            let* r := await (InsertPost req_user) (insert_post req_user trimmed None) in
            match Store.error r with
            | Some error => throw error
            | None => ret (Res 201 (PostJson (Store.data r)))
            end
      end).

(** *** POST /api/posts/upload *)

(** [`${req.user.id}/${Date.now()}_${file.originalname}`] *)
Definition fileName_of (req_user : user_id) (file : File.t) : string :=
  req_user +:+ "/" +:+ pretty (date_now env) +:+ "_" +:+ File.originalname file.

(** [.storage.from('post-images').upload(fileName, ...)]: the bucket gains
    an object, under the key the storage service gives to [fileName]. *)
Definition upload (fileName : string) (db : Db.t) : Db.t * Store.response unit :=
  (Db.with_images (Db.images db ++ [objectKey env fileName]) db, Store.ok ()).

Definition post_api_posts_upload (req_user : user_id) (req_body_content : option string)
    (req_file : option File.t) : Db.t → Db.t * HttpResponse :=
  try_catch "Failed to create post with image" (
    let content := or_string req_body_content "" in
    match req_file with
    | None => ret (Res 400 (Error "Image file is required"))
    | Some file =>
        let fileName := fileName_of req_user file in
        let* up := await (UploadImage fileName) (upload fileName) in
        match Store.error up with
        | Some uploadError => throw uploadError
        | None =>
            let image_url := publicUrl env fileName in
            let* r :=
              await (InsertPost req_user)
                (insert_post req_user (JS.trim content) (Some image_url)) in
            match Store.error r with
            | Some error => throw error
            | None => ret (Res 201 (PostJson (Store.data r)))
            end
        end
    end).

(** *** DELETE /api/posts/:id *)

(** [.delete().eq('id', id).eq('user_id', user)] *)
Definition delete_post (id : row_id) (user : user_id) (db : Db.t) : Db.t * Store.response unit :=
  (Db.with_posts
     (filter (λ p, ¬ (Post.id p = id ∧ Post.user_id p = user)) (Db.posts db)) db,
   Store.empty).

Definition delete_api_posts_id (req_user : user_id) (req_params_id : row_id)
    : Db.t → Db.t * HttpResponse :=
  try_catch "Failed to delete post" (
    let* r := await (DeletePost req_params_id req_user) (delete_post req_params_id req_user) in
    match Store.error r with
    | Some error => throw error
    | None => ret (Res 200 Success)
    end).

(** *** PUT /api/posts/:id *)

(** the [updates] object: a key that is not set leaves its column alone *)
Record updates := mk_updates {
  upd_content : option string;
  upd_image_url : option (option string)
}.

Definition apply_updates (u : updates) (p : Post.t) : Post.t :=
  Post.mk (Post.id p)
    (default (Post.content p) (upd_content u))
    (default (Post.image_url p) (upd_image_url u))
    (Post.created_at p) (Post.user_id p).

(** [.update(updates).eq('id', id).select().single()] *)
Definition update_post (u : updates) (id : row_id) (db : Db.t) : Db.t * Store.response Post.t :=
  let posts' :=
    (λ p, if decide (Post.id p = id) then apply_updates u p else p) <$> Db.posts db in
  (Db.with_posts posts' db, Store.single (Store.eq_ Post.id id posts')).

Definition put_api_posts_id (req_user : user_id) (req_params_id : row_id)
    (content remove_image : JS.value) : Db.t → Db.t * HttpResponse :=
  try_catch "Failed to update post" (
    (* 1. Verify ownership first *)
    let* r :=
      query (SelectOwnPost req_params_id req_user) (λ db,
        Store.single
          (Store.eq_ Post.user_id req_user
             (Store.eq_ Post.id req_params_id (Db.posts db)))) in
    let existing := Store.data r in
    let fetchError := Store.error r in
    if bool_decide (is_Some fetchError) || negb (bool_decide (is_Some existing))
    then ret (Res 404 (Error "Post not found or unauthorized"))
    else
      let* updates_content :=
        match content with
        | JS.JUndefined => ret None
        | _ =>
            match JS.call_trim content with
            | Some trimmed => ret (Some trimmed)
            | None => throw TypeError
            end
        end in
      let updates_image_url := if JS.truthy remove_image then Some None else None in
      let* r :=
        await (UpdatePost req_params_id)
          (update_post (mk_updates updates_content updates_image_url) req_params_id) in
      match Store.error r with
      | Some error => throw error
      | None => ret (Res 200 (PostJson (Store.data r)))
      end).

(** *** POST /api/posts/:id/like *)

(** [.delete().eq('id', id)] on likes *)
Definition delete_like (id : row_id) (db : Db.t) : Db.t * Store.response unit :=
  (Db.with_likes (filter (λ l, ¬ (Like.id l = id)) (Db.likes db)) db, Store.empty).

(** [.insert({ user_id, post_id })] on likes *)
Definition insert_like (user : user_id) (post : row_id) (db : Db.t) : Db.t * Store.response unit :=
  let row := Like.mk (Store.fresh_id (Like.id <$> Db.likes db)) post user in
  (Db.with_likes (Db.likes db ++ [row]) db, Store.empty).

Definition post_api_posts_id_like (req_user : user_id) (req_params_id : row_id)
    : Db.t → Db.t * HttpResponse :=
  try_catch "Failed to toggle like" (
    let postId := req_params_id in
    let userId := req_user in
    (* Check if already liked *)
    let* r :=
      query (SelectLike postId userId) (λ db,
        Store.maybeSingle
          (Store.eq_ Like.user_id userId (Store.eq_ Like.post_id postId (Db.likes db)))) in
    match Store.data r with
    | Some existing =>
        (* Unlike *)
        let* _ := await (DeleteLike (Like.id existing)) (delete_like (Like.id existing)) in
        ret (Res 200 (Liked false))
    | None =>
        (* Like *)
        let* _ := await (InsertLike postId userId) (insert_like userId postId) in
        ret (Res 200 (Liked true))
    end).

(** *** GET /api/posts/:id/comments *)

Definition enrich_comment (c : CommentRow.t) : EnrichedComment.t :=
  EnrichedComment.mk c (author_of (CommentRow.profiles c)) (avatar_of (CommentRow.profiles c)).

Definition get_api_posts_id_comments (req_params_id : row_id) : Db.t → Db.t * HttpResponse :=
  try_catch "Failed to fetch comments" (
    let* r :=
      query (SelectComments req_params_id) (λ db,
        Store.ok
          (Store.order CommentRow.created_at true
             (comment_row db <$> Store.eq_ Comment.post_id req_params_id (Db.comments db)))) in
    match Store.error r with
    | Some error => throw error
    | None =>
        match Store.data r with
        | Some data => ret (Res 200 (Comments (enrich_comment <$> data)))
        | None => throw TypeError
        end
    end).

(** *** POST /api/posts/:id/comments *)

Definition insert_comment (user : user_id) (post : row_id) (content : string)
    (db : Db.t) : Db.t * Store.response CommentRow.t :=
  let row := Comment.mk (Store.fresh_id (Comment.id <$> Db.comments db)) content
               (db_now env) user post in
  (Db.with_comments (Db.comments db ++ [row]) db, Store.single [comment_row db row]).

Definition post_api_posts_id_comments (req_user : user_id) (req_params_id : row_id)
    (content : JS.value) : Db.t → Db.t * HttpResponse :=
  try_catch "Failed to add comment" (
    if negb (JS.truthy content) then ret (Res 400 (Error "Comment content is required"))
    else
      match JS.call_trim content with
      | None => throw TypeError
      | Some trimmed =>
          if JS.is_empty trimmed
          then ret (Res 400 (Error "Comment content is required"))
          else
            let* r :=
              await (InsertComment req_params_id req_user)
                (insert_comment req_user req_params_id trimmed) in
            match Store.error r with
            | Some error => throw error
            | None =>
                match Store.data r with
                | Some data => ret (Res 201 (CommentJson (enrich_comment data)))
                | None => throw TypeError
                end
            end
      end).

End Handlers.

(** ** The auth middleware and the profile handler *)

(** [s.split(' ')] *)
Fixpoint split_space (s : string) : list string :=
  match s with
  | EmptyString => [EmptyString]
  | String c r =>
      if Ascii.eqb c " " then EmptyString :: split_space r
      else match split_space r with
           | w :: ws => String c w :: ws
           | [] => [String c EmptyString]
           end
  end.

(** [authenticate(req, res, next)].  [getUser] is the identity service:
    [supabaseAdmin.auth.getUser(token)] resolves to [{ data, error }], with
    [data] here the id of [data.user]; [token] is a string or undefined.
    [next] is the handler behind the middleware, run with [req.user]. *)
Definition authenticate (getUser : option string → Store.response (option user_id))
    (req_headers_authorization : option string)
    (next : user_id → Db.t → Db.t * HttpResponse) (db : Db.t) : Db.t * HttpResponse :=
  let authHeader := req_headers_authorization in
  match authHeader with
  | None => (db, Res 401 (Error "Missing or invalid token"))
  | Some header =>
      if JS.is_empty header || negb (String.prefix "Bearer " header)
      then (db, Res 401 (Error "Missing or invalid token"))
      else
        let token := split_space header !! 1%nat in
        let r := getUser token in
        let data_user := Store.data r ≫= (λ data, data) in
        if bool_decide (is_Some (Store.error r)) || negb (bool_decide (is_Some data_user))
        then (db, Res 401 (Error "Invalid token"))
        else
          match data_user with
          | Some user => next user db
          | None => (db, Res 401 (Error "Invalid token"))
          end
  end.

(** What GET /api/profile answers. *)
Inductive profile_json :=
| ProfileError (error : string)
| ProfileJson (data : option Profile.t).

Record ProfileResponse := ProfileRes { profile_status : nat; profile_body : profile_json }.

(** GET /api/profile; [select_fails] tells whether the store fails the
    select on profiles. *)
Definition get_api_profile (select_fails : bool) (req_user : user_id) (db : Db.t)
    : Db.t * ProfileResponse :=
  let body : M ProfileResponse :=
    let* r :=
      (λ db, (db, Val (if select_fails then Store.failed "upstream failure"
                       else Store.single (Store.eq_ Profile.id req_user (Db.profiles db))))) in
    match Store.error r with
    | Some error => throw error
    | None => ret (ProfileRes 200 (ProfileJson (Store.data r)))
    end in
  match body db with
  | (db', Val r) => (db', r)
  | (db', Throw _) => (db', ProfileRes 500 (ProfileError "Failed to fetch profile"))
  end.

(** ** Derived descriptions and sample data *)

(** One post's enrichment never throws and leaves the store alone; a lookup
    the store fails to answer shows as a zero count or as not liked. *)
Definition enriched_post (env : Env) (viewer : option user_id) (db : Db.t) (post : PostRow.t)
    : EnrichedPost.t :=
  EnrichedPost.mk post
    (author_of (PostRow.profiles post))
    (avatar_of (PostRow.profiles post))
    (if fails env (CountLikes (PostRow.id post)) then 0
     else length (filter (λ l, Like.post_id l = PostRow.id post) (Db.likes db)))
    (if fails env (CountComments (PostRow.id post)) then 0
     else length (filter (λ c, Comment.post_id c = PostRow.id post) (Db.comments db)))
    (match viewer with
     | Some v =>
         if fails env (SelectLike (PostRow.id post) v) then false
         else bool_decide
                (length (filter (λ l, Like.user_id l = v)
                           (filter (λ l, Like.post_id l = PostRow.id post) (Db.likes db))) = 1)
     | None => false
     end).

(** The path of a request URL ends at the first [?] or [#]: a storage
    service that keys the object by what is left of the path it was sent. *)
Fixpoint url_path (s : string) : string :=
  match s with
  | EmptyString => EmptyString
  | String c r =>
      if Ascii.eqb c "?" || Ascii.eqb c "#" then EmptyString else String c (url_path r)
  end.

(** A store that answers every call. *)
Definition env_ok : Env :=
  mk_env (λ _, false) 1700000000000 50 (λ fileName, "https://cdn.example/" +:+ fileName) url_path.

(** A store that fails to count the likes of post 1 and answers all the rest. *)
Definition env_likes_down : Env :=
  mk_env (λ c, match c with CountLikes p => (p =? 1)%N | _ => false end)
    1700000000000 50 (λ fileName, "https://cdn.example/" +:+ fileName) url_path.

(** One post of user A, liked by user B. *)
Definition db_liked : Db.t :=
  Db.mk [Post.mk 1 "hello" None 10 "A"] [Like.mk 1 1 "B"] []
    [Profile.mk "A" (Some "alice") None; Profile.mk "B" (Some "bob") None] [].

(** Two posts and two comments with distinct timestamps. *)
Definition db_two : Db.t :=
  Db.mk [Post.mk 1 "hello" None 10 "A"; Post.mk 2 "again" None 20 "A"] []
    [Comment.mk 1 "nice" 30 "B" 1; Comment.mk 2 "thanks" 25 "A" 1]
    [Profile.mk "A" (Some "alice") None; Profile.mk "B" (Some "bob") None] [].

(** Post 1 with two Like rows of user B. *)
Definition db_liked_twice : Db.t :=
  Db.mk [Post.mk 1 "hello" None 10 "A"] [Like.mk 1 1 "B"; Like.mk 2 1 "B"] []
    [Profile.mk "A" (Some "alice") None; Profile.mk "B" (Some "bob") None] [].

(** Like rows can be compared. *)
#[global] Instance like_eq_dec : EqDecision Like.t.
Proof. solve_decision. Defined.

(** The Like rows of a (post, user) pair. *)
Definition likes_of (post : row_id) (user : user_id) (db : Db.t) : list Like.t :=
  filter (λ l, Like.post_id l = post ∧ Like.user_id l = user) (Db.likes db).

(** An uploaded image. *)
Definition cat_png : File.t := File.mk "cat.png" "image/png" "".

(** An uploaded image whose name has a question mark. *)
Definition cat_v2_png : File.t := File.mk "cat?v=2.png" "image/png" "".

(** A store that fails every count lookup of the feed and answers the rest. *)
Definition env_counts_down : Env :=
  mk_env (λ c, match c with CountLikes _ | CountComments _ => true | _ => false end)
    1700000000000 50 (λ fileName, "https://cdn.example/" +:+ fileName) url_path.

(** One post of user A, liked and commented by user B. *)
Definition db_engaged : Db.t :=
  Db.mk [Post.mk 1 "hello" None 10 "A"] [Like.mk 1 1 "B"] [Comment.mk 1 "nice" 30 "B" 1]
    [Profile.mk "A" (Some "alice") None; Profile.mk "B" (Some "bob") None] [].

(** A store whose object storage refuses every upload. *)
Definition env_upload_down : Env :=
  mk_env (λ c, match c with UploadImage _ => true | _ => false end)
    1700000000000 50 (λ fileName, "https://cdn.example/" +:+ fileName) url_path.

(** Every post has content that is not empty after trimming. *)
Definition content_not_blank (db : Db.t) : Prop :=
  ∀ p, p ∈ Db.posts db → JS.trim (Post.content p) ≠ "".

(** Every post has content that trimming leaves as it is. *)
Definition content_trimmed (db : Db.t) : Prop :=
  ∀ p, p ∈ Db.posts db → JS.trim (Post.content p) = Post.content p.

(** An empty store with the profiles of users A and B. *)
Definition db_empty : Db.t :=
  Db.mk [] [] [] [Profile.mk "A" (Some "alice") None; Profile.mk "B" (Some "bob") None] [].

(** No code unit of the string is a space. *)
Fixpoint no_space (s : string) : bool :=
  match s with
  | EmptyString => true
  | String c r => negb (Ascii.eqb c " ") && no_space r
  end.

(** An identity service that knows the tokens of users A and B. *)
Definition getUser_ab (token : option string) : Store.response (option user_id) :=
  match token with
  | Some "tokA" => Store.ok (Some "A")
  | Some "tokB" => Store.ok (Some "B")
  | _ => Store.failed "invalid JWT"
  end.

(** A store that fails every insert of a post. *)
Definition env_insert_down : Env :=
  mk_env (λ c, match c with InsertPost _ => true | _ => false end)
    1700000000000 50 (λ fileName, "https://cdn.example/" +:+ fileName) url_path.

(** A store that fails every insert and delete on likes. *)
Definition env_like_writes_down : Env :=
  mk_env (λ c, match c with InsertLike _ _ | DeleteLike _ => true | _ => false end)
    1700000000000 50 (λ fileName, "https://cdn.example/" +:+ fileName) url_path.

(** * Properties *)

(** The orders of the two listings are total preorders on the rows. *)
#[global] Instance asc_total {A} (key : A → Z) : Total (Store.asc key).
Proof. intros a b. unfold Store.asc. lia. Qed.
#[global] Instance desc_total {A} (key : A → Z) : Total (Store.desc key).
Proof. intros a b. unfold Store.desc. lia. Qed.
#[global] Instance asc_trans {A} (key : A → Z) : Transitive (Store.asc key).
Proof. intros a b c. unfold Store.asc. lia. Qed.
#[global] Instance desc_trans {A} (key : A → Z) : Transitive (Store.desc key).
Proof. intros a b c. unfold Store.desc. lia. Qed.


(** ** [trim] *)

Lemma is_empty_spec (s : string) : JS.is_empty s = true ↔ s = "".
Proof. destruct s; simpl; split; congruence. Qed.

Lemma trim_start_head (s : string) :
  match JS.trim_start s with
  | EmptyString => True
  | String c _ => JS.is_white_space c = false
  end.
Proof.
  induction s as [|c r IH]; simpl; [done|].
  destruct (JS.is_white_space c) eqn:Hc; [done|]. exact Hc.
Qed.

Lemma trim_start_fixed (s : string) :
  match s with
  | EmptyString => True
  | String c _ => JS.is_white_space c = false
  end →
  JS.trim_start s = s.
Proof. destruct s as [|c r]; simpl; [done|]. by intros ->. Qed.

Lemma trim_end_idemp (s : string) : JS.trim_end (JS.trim_end s) = JS.trim_end s.
Proof.
  induction s as [|c r IH]; simpl; [done|].
  destruct (JS.is_white_space c) eqn:Hc; simpl.
  - destruct (JS.is_empty (JS.trim_end r)) eqn:He; simpl; [done|].
    by rewrite IH, Hc, He.
  - by rewrite IH, Hc.
Qed.

Lemma trim_end_head (s : string) :
  match s with
  | EmptyString => True
  | String c _ => JS.is_white_space c = false
  end →
  match JS.trim_end s with
  | EmptyString => s = ""
  | String c _ => JS.is_white_space c = false
  end.
Proof.
  destruct s as [|c r]; simpl; [done|].
  intros Hc. by rewrite Hc.
Qed.

(** Trimming twice is trimming once. *)
Lemma trim_idemp (s : string) : JS.trim (JS.trim s) = JS.trim s.
Proof.
  unfold JS.trim.
  rewrite (trim_start_fixed (JS.trim_end (JS.trim_start s))).
  - apply trim_end_idemp.
  - pose proof (trim_end_head (JS.trim_start s) (trim_start_head s)) as H.
    destruct (JS.trim_end (JS.trim_start s)); [done|exact H].
Qed.

(** ** The feed *)

Lemma maybeSingle_data {A} (rows : list A) :
  bool_decide (is_Some (Store.data (Store.maybeSingle rows))) = bool_decide (length rows = 1).
Proof. destruct rows as [|r [|r' rows]]; done. Qed.

Lemma enrich_run env viewer db post :
  enrich env viewer post db = (db, Val (enriched_post env viewer db post)).
Proof.
  unfold enrich, enriched_post, bind, query, await, ret.
  destruct (fails env (CountLikes _)), (fails env (CountComments _)); simpl;
    destruct viewer as [v|]; simpl; try done;
    destruct (fails env (SelectLike _ v)); simpl; try done;
    by rewrite maybeSingle_data.
Qed.

Lemma all_enrich_run env viewer db posts :
  all (enrich env viewer) posts db = (db, Val (enriched_post env viewer db <$> posts)).
Proof.
  induction posts as [|p ps IH]; [done|].
  simpl. unfold bind at 1. rewrite enrich_run.
  unfold bind at 1. by rewrite IH.
Qed.

(** What GET /api/posts answers. *)
Lemma get_api_posts_run env req_query db :
  get_api_posts env req_query db =
    (db,
     if fails env SelectPosts then Res 500 (Error "Failed to fetch posts")
     else Res 200 (Feed (enriched_post env (currentUserId req_query) db
                           <$> Store.order PostRow.created_at false
                                 (post_row db <$> Db.posts db)))).
Proof.
  unfold get_api_posts, try_catch, bind, query, await.
  destruct (fails env SelectPosts); simpl; [done|].
  by rewrite all_enrich_run.
Qed.

Lemma order_Permutation {A} (key : A → Z) (ascending : bool) (rows : list A) :
  Store.order key ascending rows ≡ₚ rows.
Proof. unfold Store.order. destruct ascending; apply merge_sort_Permutation. Qed.

Lemma order_desc_sorted {A} (key : A → Z) (rows : list A) :
  StronglySorted (Store.desc key) (Store.order key false rows).
Proof. apply StronglySorted_merge_sort; apply _. Qed.

Lemma order_asc_sorted {A} (key : A → Z) (rows : list A) :
  StronglySorted (Store.asc key) (Store.order key true rows).
Proof. apply StronglySorted_merge_sort; apply _. Qed.

(** Sortedness of the projected rows is sortedness of the answers. *)
Lemma StronglySorted_pullback {A B} (R : relation B) (f : A → B) (l : list A) :
  StronglySorted R (f <$> l) → StronglySorted (λ a b, R (f a) (f b)) l.
Proof.
  induction l as [|a l IH]; simpl; intros H; [constructor|].
  apply StronglySorted_inv in H as [Hl Ha].
  constructor; [by apply IH|].
  rewrite Forall_fmap in Ha. exact Ha.
Qed.

(** With pairwise distinct keys a sorted list is strictly sorted. *)
Lemma StronglySorted_distinct {A} (R : relation Z) (key : A → Z) (l : list A) :
  StronglySorted (λ a b, R (key a) (key b)) l →
  NoDup (key <$> l) →
  StronglySorted (λ a b, R (key a) (key b) ∧ key a ≠ key b) l.
Proof.
  induction 1 as [|a l Hl IH Ha]; simpl; intros Hnd; [constructor|].
  apply NoDup_cons in Hnd as [Hnotin Hnd].
  constructor; [by apply IH|].
  apply Forall_forall. intros b Hb.
  split; [by eapply Forall_forall in Ha|].
  intros Heq. apply Hnotin. rewrite Heq. by apply list_elem_of_fmap_2.
Qed.

Lemma StronglySorted_weaken {A} (R R' : relation A) (l : list A) :
  (∀ a b, R a b → R' a b) → StronglySorted R l → StronglySorted R' l.
Proof.
  intros HR. induction 1 as [|a l Hl IH Ha]; constructor; [done|].
  eapply Forall_impl; [exact Ha|]. intros b. apply HR.
Qed.

Lemma feed_length env viewer db :
  length (enriched_post env viewer db
            <$> Store.order PostRow.created_at false (post_row db <$> Db.posts db))
  = length (Db.posts db).
Proof.
  rewrite length_fmap, (Permutation_length (order_Permutation _ _ _)).
  apply length_fmap.
Qed.

(** C1, as the code has it: a feed read whose posts query the store answers
    returns one enriched post per post row.  Each of them carries as
    [like_count] the number of Like rows with its id as [post_id], counted on
    the store as it is at the read, when the like-count lookup of that post
    is answered, and 0 when that lookup fails; likewise [comment_count] is
    the number of Comment rows with its id as [post_id] when the
    comment-count lookup is answered, and 0 when it fails. *)
Theorem feed_counts_are_row_counts_or_zero env req_query db :
  fails env SelectPosts = false →
  ∃ feed,
    get_api_posts env req_query db = (db, Res 200 (Feed feed)) ∧
    length feed = length (Db.posts db) ∧
    ∀ e, e ∈ feed →
      EnrichedPost.like_count e =
        (if fails env (CountLikes (PostRow.id (EnrichedPost.post e))) then 0
         else length (filter (λ l, Like.post_id l = PostRow.id (EnrichedPost.post e))
                        (Db.likes db))) ∧
      EnrichedPost.comment_count e =
        (if fails env (CountComments (PostRow.id (EnrichedPost.post e))) then 0
         else length (filter (λ c, Comment.post_id c = PostRow.id (EnrichedPost.post e))
                        (Db.comments db))).
Proof.
  intros Hposts. eexists. split; [|split].
  - rewrite get_api_posts_run, Hposts. reflexivity.
  - apply feed_length.
  - intros e He. apply list_elem_of_fmap in He as (p & -> & _).
    unfold enriched_post; simpl. done.
Qed.

Lemma feed_counts_are_row_counts_or_zero_witness :
  ∃ feed,
    get_api_posts env_ok ∅ db_engaged = (db_engaged, Res 200 (Feed feed)) ∧
    length feed = 1%nat ∧
    ∀ e, e ∈ feed →
      EnrichedPost.like_count e =
        length (filter (λ l, Like.post_id l = PostRow.id (EnrichedPost.post e))
                  (Db.likes db_engaged)) ∧
      EnrichedPost.comment_count e =
        length (filter (λ c, Comment.post_id c = PostRow.id (EnrichedPost.post e))
                  (Db.comments db_engaged)).
Proof.
  exact (feed_counts_are_row_counts_or_zero env_ok ∅ db_engaged eq_refl).
Defined.

(** C1 as stated fails: with the count lookups of the feed failing, the
    feed is still returned, and its post shows a like count and a comment
    count of 0 although the store holds one Like row and one Comment row
    for it. *)
Lemma feed_counts_zero_despite_rows :
  ∃ e,
    get_api_posts env_counts_down ∅ db_engaged = (db_engaged, Res 200 (Feed [e])) ∧
    PostRow.id (EnrichedPost.post e) = 1%N ∧
    EnrichedPost.like_count e = 0%nat ∧
    length (filter (λ l, Like.post_id l = 1%N) (Db.likes db_engaged)) = 1%nat ∧
    EnrichedPost.comment_count e = 0%nat ∧
    length (filter (λ c, Comment.post_id c = 1%N) (Db.comments db_engaged)) = 1%nat.
Proof.
  eexists. split; [vm_compute; reflexivity|]. repeat split.
Qed.

(** C2, as the code has it: the viewer id is read from the [user_id] query
    parameter (an empty value counts as none).  In a feed the store answers,
    a post's [liked_by_me] is true iff such a viewer id was supplied, the
    lookup for (post id, viewer id) is answered, and that lookup finds
    exactly one Like row; in every other case it is false. *)
Theorem liked_by_me_iff env req_query db :
  fails env SelectPosts = false →
  ∃ feed,
    get_api_posts env req_query db = (db, Res 200 (Feed feed)) ∧
    ∀ e, e ∈ feed →
      EnrichedPost.liked_by_me e = true ↔
      ∃ viewer,
        req_query !! "user_id" = Some viewer ∧ viewer ≠ "" ∧
        fails env (SelectLike (PostRow.id (EnrichedPost.post e)) viewer) = false ∧
        ∃ l, filter (λ l, Like.post_id l = PostRow.id (EnrichedPost.post e)
                          ∧ Like.user_id l = viewer) (Db.likes db) = [l].
Proof.
  intros Hposts. eexists. split.
  - rewrite get_api_posts_run, Hposts. reflexivity.
  - intros e He. apply list_elem_of_fmap in He as (p & -> & _).
    unfold enriched_post, currentUserId, or_null; simpl.
    assert (Hlen : ∀ v,
      length (filter (λ l, Like.user_id l = v)
                (filter (λ l, Like.post_id l = PostRow.id p) (Db.likes db))) = 1 ↔
      ∃ l, filter (λ l, Like.post_id l = PostRow.id p ∧ Like.user_id l = v)
             (Db.likes db) = [l]).
    { intros v. rewrite list_filter_filter.
      rewrite (list_filter_iff _ (λ l, Like.post_id l = PostRow.id p ∧ Like.user_id l = v))
        by (intros l; tauto).
      destruct (filter _ (Db.likes db)) as [|l [|l' ls]]; simpl; split.
      - lia.
      - by intros [l ?].
      - eauto.
      - done.
      - lia.
      - by intros [l0 ?]. }
    destruct (req_query !! "user_id") as [v|] eqn:Hq.
    + destruct (JS.is_empty v) eqn:Hv.
      * apply is_empty_spec in Hv. split; [done|].
        intros (v' & Hv' & Hne & _). congruence.
      * assert (v ≠ "") as Hne by (intros ->; done).
        destruct (fails env (SelectLike (PostRow.id p) v)) eqn:Hf.
        -- split; [done|]. intros (v' & Hv' & _ & Hf' & _).
           assert (v' = v) as -> by congruence. congruence.
        -- rewrite bool_decide_eq_true, Hlen. split.
           ++ intros Hl. exists v. eauto.
           ++ intros (v' & Hv' & _ & _ & Hl). assert (v' = v) as -> by congruence. done.
    + split; [done|]. intros (v' & Hv' & _). congruence.
Qed.

Lemma liked_by_me_iff_witness :
  ∃ feed,
    get_api_posts env_ok {["user_id" := "B"]} db_liked = (db_liked, Res 200 (Feed feed)) ∧
    ∀ e, e ∈ feed →
      EnrichedPost.liked_by_me e = true ↔
      ∃ viewer,
        ({["user_id" := "B"]} : gmap string string) !! "user_id" = Some viewer ∧ viewer ≠ "" ∧
        fails env_ok (SelectLike (PostRow.id (EnrichedPost.post e)) viewer) = false ∧
        ∃ l, filter (λ l, Like.post_id l = PostRow.id (EnrichedPost.post e)
                          ∧ Like.user_id l = viewer) (Db.likes db_liked) = [l].
Proof.
  apply (liked_by_me_iff env_ok {["user_id" := "B"]} db_liked). reflexivity.
Defined.

(** C2 as stated fails: with the viewer id supplied as [viewer_id] and a
    Like row for (post 1, B) in the store, the post is reported as not liked. *)
Lemma liked_by_me_viewer_id_ignored :
  ({["viewer_id" := "B"]} : gmap string string) !! "viewer_id" = Some "B" ∧
  Like.mk 1 1 "B" ∈ Db.likes db_liked ∧
  ∃ e,
    get_api_posts env_ok {["viewer_id" := "B"]} db_liked = (db_liked, Res 200 (Feed [e])) ∧
    PostRow.id (EnrichedPost.post e) = 1%N ∧
    EnrichedPost.liked_by_me e = false.
Proof.
  split; [reflexivity|]. split; [apply list_elem_of_here|].
  eexists. split; [vm_compute; reflexivity|]. split; reflexivity.
Qed.

(** C4, as the code has it: the feed fails with 500 exactly when the posts
    query itself fails.  A per-post lookup that fails does not fail the
    aggregation: every post of the posts query is still returned with 200,
    with a failed like count or comment count reported as 0 and a failed
    viewer-like check as [liked_by_me] false. *)
Theorem feed_lookup_failure_degrades env req_query db :
  (fails env SelectPosts = true →
     get_api_posts env req_query db = (db, Res 500 (Error "Failed to fetch posts"))) ∧
  (fails env SelectPosts = false →
     ∃ feed,
       get_api_posts env req_query db = (db, Res 200 (Feed feed)) ∧
       EnrichedPost.post <$> feed =
         Store.order PostRow.created_at false (post_row db <$> Db.posts db) ∧
       ∀ e, e ∈ feed →
         (fails env (CountLikes (PostRow.id (EnrichedPost.post e))) = true →
            EnrichedPost.like_count e = 0) ∧
         (fails env (CountComments (PostRow.id (EnrichedPost.post e))) = true →
            EnrichedPost.comment_count e = 0) ∧
         (∀ viewer, fails env (SelectLike (PostRow.id (EnrichedPost.post e)) viewer) = true →
            currentUserId req_query = Some viewer →
            EnrichedPost.liked_by_me e = false)).
Proof.
  split; intros Hposts.
  - by rewrite get_api_posts_run, Hposts.
  - eexists. split; [|split].
    + rewrite get_api_posts_run, Hposts. reflexivity.
    + rewrite <- list_fmap_compose. apply list_fmap_id.
    + intros e He. apply list_elem_of_fmap in He as (p & -> & _).
      unfold enriched_post; simpl. repeat split.
      * by intros ->.
      * by intros ->.
      * intros viewer Hf ->. by rewrite Hf.
Qed.

Lemma feed_lookup_failure_degrades_witness :
  ∃ feed,
    get_api_posts env_likes_down ∅ db_liked = (db_liked, Res 200 (Feed feed)) ∧
    ∀ e, e ∈ feed →
      fails env_likes_down (CountLikes (PostRow.id (EnrichedPost.post e))) = true →
      EnrichedPost.like_count e = 0.
Proof.
  destruct (feed_lookup_failure_degrades env_likes_down ∅ db_liked) as [_ H].
  destruct (H eq_refl) as (feed & Hrun & _ & Hfeed).
  exists feed. split; [exact Hrun|].
  intros e He. exact (proj1 (Hfeed e He)).
Defined.

(** C4 as stated fails: the like-count lookup of post 1 fails, and the feed
    is answered with 200 and a like count of 0 for a post that has a Like
    row. *)
Lemma feed_lookup_failure_not_500 :
  fails env_likes_down (CountLikes 1) = true ∧
  length (filter (λ l, Like.post_id l = 1%N) (Db.likes db_liked)) = 1 ∧
  ∃ e,
    get_api_posts env_likes_down ∅ db_liked = (db_liked, Res 200 (Feed [e])) ∧
    PostRow.id (EnrichedPost.post e) = 1%N ∧
    EnrichedPost.like_count e = 0.
Proof.
  split; [reflexivity|]. split; [reflexivity|].
  eexists. split; [vm_compute; reflexivity|]. split; reflexivity.
Qed.

Lemma get_api_posts_id_comments_run env id db :
  get_api_posts_id_comments env id db =
    (db,
     if fails env (SelectComments id) then Res 500 (Error "Failed to fetch comments")
     else Res 200 (Comments (enrich_comment
                               <$> Store.order CommentRow.created_at true
                                     (comment_row db
                                        <$> Store.eq_ Comment.post_id id (Db.comments db))))).
Proof.
  unfold get_api_posts_id_comments, try_catch, bind, query, await.
  by destruct (fails env (SelectComments id)).
Qed.

(** C5: a feed read the store answers returns all the posts, the enriched
    sequence in the order of the posts query, which is by [created_at]
    descending (strictly decreasing when the timestamps are pairwise
    distinct); a comment list the store answers returns the comments of the
    post by [created_at] ascending (strictly increasing when the timestamps
    are pairwise distinct). *)
Theorem feed_newest_first_comments_oldest_first env req_query id db :
  (fails env SelectPosts = false →
   ∃ feed,
     get_api_posts env req_query db = (db, Res 200 (Feed feed)) ∧
     EnrichedPost.post <$> feed =
       Store.order PostRow.created_at false (post_row db <$> Db.posts db) ∧
     EnrichedPost.post <$> feed ≡ₚ post_row db <$> Db.posts db ∧
     StronglySorted
       (λ a b, (PostRow.created_at (EnrichedPost.post b)
                ≤ PostRow.created_at (EnrichedPost.post a))%Z) feed ∧
     (NoDup (Post.created_at <$> Db.posts db) →
      StronglySorted
        (λ a b, (PostRow.created_at (EnrichedPost.post b)
                 < PostRow.created_at (EnrichedPost.post a))%Z) feed)) ∧
  (fails env (SelectComments id) = false →
   ∃ cs,
     get_api_posts_id_comments env id db = (db, Res 200 (Comments cs)) ∧
     EnrichedComment.comment <$> cs ≡ₚ
       comment_row db <$> filter (λ c, Comment.post_id c = id) (Db.comments db) ∧
     StronglySorted
       (λ a b, (CommentRow.created_at (EnrichedComment.comment a)
                ≤ CommentRow.created_at (EnrichedComment.comment b))%Z) cs ∧
     (NoDup (Comment.created_at <$> filter (λ c, Comment.post_id c = id) (Db.comments db)) →
      StronglySorted
        (λ a b, (CommentRow.created_at (EnrichedComment.comment a)
                 < CommentRow.created_at (EnrichedComment.comment b))%Z) cs)).
Proof.
  split; intros Hok.
  - eexists. split; [rewrite get_api_posts_run, Hok; reflexivity|].
    set (rows := Store.order PostRow.created_at false (post_row db <$> Db.posts db)).
    set (feed := enriched_post env (currentUserId req_query) db <$> rows).
    assert (Hproj : EnrichedPost.post <$> feed = rows).
    { unfold feed. rewrite <- list_fmap_compose. apply list_fmap_id. }
    assert (Hsorted : StronglySorted
              (λ a b, (PostRow.created_at (EnrichedPost.post b)
                       ≤ PostRow.created_at (EnrichedPost.post a))%Z) feed).
    { apply (StronglySorted_pullback (Store.desc PostRow.created_at) EnrichedPost.post).
      rewrite Hproj. apply order_desc_sorted. }
    split; [exact Hproj|]. split; [rewrite Hproj; apply order_Permutation|].
    split; [exact Hsorted|].
    intros Hnd.
    apply (StronglySorted_distinct (λ x y, (y ≤ x)%Z)
             (λ e, PostRow.created_at (EnrichedPost.post e))) in Hsorted.
    + eapply StronglySorted_weaken; [|exact Hsorted]. simpl. intros a b. lia.
    + rewrite (list_fmap_compose EnrichedPost.post PostRow.created_at), Hproj.
      unfold rows. rewrite (order_Permutation _ _ _), <- list_fmap_compose.
      exact Hnd.
  - eexists. split; [rewrite get_api_posts_id_comments_run, Hok; reflexivity|].
    set (rows := Store.order CommentRow.created_at true
                   (comment_row db <$> Store.eq_ Comment.post_id id (Db.comments db))).
    set (cs := enrich_comment <$> rows).
    assert (Hproj : EnrichedComment.comment <$> cs = rows).
    { unfold cs. rewrite <- list_fmap_compose. apply list_fmap_id. }
    assert (Hsorted : StronglySorted
              (λ a b, (CommentRow.created_at (EnrichedComment.comment a)
                       ≤ CommentRow.created_at (EnrichedComment.comment b))%Z) cs).
    { apply (StronglySorted_pullback (Store.asc CommentRow.created_at)
               EnrichedComment.comment).
      rewrite Hproj. apply order_asc_sorted. }
    split; [rewrite Hproj; apply order_Permutation|].
    split; [exact Hsorted|].
    intros Hnd.
    apply (StronglySorted_distinct (λ x y, (x ≤ y)%Z)
             (λ e, CommentRow.created_at (EnrichedComment.comment e))) in Hsorted.
    + eapply StronglySorted_weaken; [|exact Hsorted]. simpl. intros a b. lia.
    + rewrite (list_fmap_compose EnrichedComment.comment CommentRow.created_at), Hproj.
      unfold rows. rewrite (order_Permutation _ _ _), <- list_fmap_compose.
      exact Hnd.
Qed.

Lemma feed_newest_first_comments_oldest_first_witness :
  (∃ feed,
     get_api_posts env_ok ∅ db_two = (db_two, Res 200 (Feed feed)) ∧
     StronglySorted
       (λ a b, (PostRow.created_at (EnrichedPost.post b)
                < PostRow.created_at (EnrichedPost.post a))%Z) feed) ∧
  (∃ cs,
     get_api_posts_id_comments env_ok 1 db_two = (db_two, Res 200 (Comments cs)) ∧
     StronglySorted
       (λ a b, (CommentRow.created_at (EnrichedComment.comment a)
                < CommentRow.created_at (EnrichedComment.comment b))%Z) cs).
Proof.
  destruct (feed_newest_first_comments_oldest_first env_ok ∅ 1 db_two) as [Hfeed Hcs].
  split.
  - destruct (Hfeed eq_refl) as (feed & Hrun & _ & _ & _ & Hstrict).
    exists feed. split; [exact Hrun|]. apply Hstrict.
    apply (bool_decide_unpack _). vm_compute. reflexivity.
  - destruct (Hcs eq_refl) as (cs & Hrun & _ & _ & Hstrict).
    exists cs. split; [exact Hrun|]. apply Hstrict.
    apply (bool_decide_unpack _). vm_compute. reflexivity.
Defined.

(** ** The like toggle *)

Lemma filter_all {A} (P : A → Prop) `{∀ x, Decision (P x)} (l : list A) :
  (∀ x, x ∈ l → P x) → filter P l = l.
Proof.
  induction l as [|a l IH]; intros Hl; [done|].
  rewrite filter_cons_True by (apply Hl; left).
  f_equal. apply IH. intros x Hx. apply Hl. by right.
Qed.

Lemma filter_none {A} (P : A → Prop) `{∀ x, Decision (P x)} (l : list A) :
  (∀ x, x ∈ l → ¬ P x) → filter P l = [].
Proof.
  induction l as [|a l IH]; intros Hl; [done|].
  rewrite filter_cons_False by (apply Hl; left).
  apply IH. intros x Hx. apply Hl. by right.
Qed.

Lemma select_like_rows post user db :
  Store.eq_ Like.user_id user (Store.eq_ Like.post_id post (Db.likes db)) = likes_of post user db.
Proof.
  unfold Store.eq_, likes_of. rewrite list_filter_filter.
  apply list_filter_iff. intros l. tauto.
Qed.

Lemma like_toggle_run env user post db :
  post_api_posts_id_like env user post db =
    match (if fails env (SelectLike post user) then None
           else Store.data (Store.maybeSingle (likes_of post user db))) with
    | Some existing =>
        (if fails env (DeleteLike (Like.id existing)) then db
         else Db.with_likes (filter (λ l, ¬ (Like.id l = Like.id existing)) (Db.likes db)) db,
         Res 200 (Liked false))
    | None =>
        (if fails env (InsertLike post user) then db
         else Db.with_likes
                (Db.likes db ++ [Like.mk (Store.fresh_id (Like.id <$> Db.likes db)) post user]) db,
         Res 200 (Liked true))
    end.
Proof.
  unfold post_api_posts_id_like, try_catch, bind, query, await.
  rewrite select_like_rows.
  destruct (fails env (SelectLike post user)); simpl.
  - by destruct (fails env (InsertLike post user)).
  - destruct (Store.data (Store.maybeSingle (likes_of post user db))) as [existing|]; simpl.
    + by destruct (fails env (DeleteLike (Like.id existing))).
    + by destruct (fails env (InsertLike post user)).
Qed.

Lemma fresh_id_above (ids : list row_id) (x : row_id) :
  x ∈ ids → (x < Store.fresh_id ids)%N.
Proof.
  unfold Store.fresh_id. induction ids as [|y ids IH]; simpl.
  - intros H. by apply not_elem_of_nil in H.
  - intros [->|H]%elem_of_cons; [lia|]. specialize (IH H). lia.
Qed.

(** Deleting the id the store has just assigned removes the new row only. *)
Lemma delete_fresh_like post user (ls : list Like.t) :
  filter (λ l, ¬ (Like.id l = Store.fresh_id (Like.id <$> ls)))
    (ls ++ [Like.mk (Store.fresh_id (Like.id <$> ls)) post user]) = ls.
Proof.
  rewrite filter_app, filter_cons_False, filter_nil, app_nil_r by (simpl; tauto).
  apply filter_all. intros l Hl Heq.
  pose proof (fresh_id_above (Like.id <$> ls) (Like.id l)
                (list_elem_of_fmap_2 Like.id _ _ Hl)) as Hlt.
  rewrite Heq in Hlt. lia.
Qed.

Lemma likes_of_nil post user db :
  (∀ l, l ∈ Db.likes db → ¬ (Like.post_id l = post ∧ Like.user_id l = user)) →
  likes_of post user db = [].
Proof.
  intros H. unfold likes_of. apply filter_none. exact H.
Qed.

(** C3: with a store that answers, and no Like row for the (post, user)
    pair, three toggles in sequence report liked=true, liked=false and
    liked=true: the first inserts the one row of the pair, the second
    deletes it and gives back the initial store, the third inserts it again. *)
Theorem like_toggle_three_calls env user post db :
  (∀ c, fails env c = false) →
  (∀ l, l ∈ Db.likes db → ¬ (Like.post_id l = post ∧ Like.user_id l = user)) →
  ∃ db1 db2 db3 row,
    post_api_posts_id_like env user post db = (db1, Res 200 (Liked true)) ∧
    post_api_posts_id_like env user post db1 = (db2, Res 200 (Liked false)) ∧
    post_api_posts_id_like env user post db2 = (db3, Res 200 (Liked true)) ∧
    Like.post_id row = post ∧ Like.user_id row = user ∧
    Db.likes db1 = Db.likes db ++ [row] ∧ likes_of post user db1 = [row] ∧
    db2 = db ∧ likes_of post user db2 = [] ∧
    db3 = db1.
Proof.
  intros Hok Hnone.
  set (row := Like.mk (Store.fresh_id (Like.id <$> Db.likes db)) post user).
  set (db1 := Db.with_likes (Db.likes db ++ [row]) db).
  pose proof (likes_of_nil post user db Hnone) as Hnil.
  assert (Hone : likes_of post user db1 = [row]).
  { unfold likes_of, db1; simpl. fold (likes_of post user db).
    rewrite filter_app. fold (likes_of post user db). rewrite Hnil; simpl.
    by rewrite filter_cons_True by done. }
  assert (Hfirst : post_api_posts_id_like env user post db = (db1, Res 200 (Liked true))).
  { rewrite like_toggle_run, !Hok, Hnil. reflexivity. }
  assert (Hsecond : post_api_posts_id_like env user post db1 = (db, Res 200 (Liked false))).
  { rewrite like_toggle_run, !Hok, Hone; simpl.
    rewrite Hok. subst row. rewrite delete_fresh_like. by destruct db. }
  exists db1, db, db1, row. repeat split; try done.
Qed.

Lemma like_toggle_three_calls_witness :
  ∃ db1 db2 db3 row,
    post_api_posts_id_like env_ok "B" 1 db_two = (db1, Res 200 (Liked true)) ∧
    post_api_posts_id_like env_ok "B" 1 db1 = (db2, Res 200 (Liked false)) ∧
    post_api_posts_id_like env_ok "B" 1 db2 = (db3, Res 200 (Liked true)) ∧
    Like.post_id row = 1%N ∧ Like.user_id row = "B" ∧
    Db.likes db1 = Db.likes db_two ++ [row] ∧ likes_of 1 "B" db1 = [row] ∧
    db2 = db_two ∧ likes_of 1 "B" db2 = [] ∧
    db3 = db1.
Proof.
  apply (like_toggle_three_calls env_ok "B" 1%N db_two).
  - intros c. reflexivity.
  - intros l Hl. simpl in Hl. by apply not_elem_of_nil in Hl.
Defined.

Lemma NoDup_fmap_elem_inj {A B} (f : A → B) (l : list A) (x y : A) :
  NoDup (f <$> l) → x ∈ l → y ∈ l → f x = f y → x = y.
Proof.
  induction l as [|a l IH]; simpl; intros Hnd Hx Hy Heq.
  - by apply not_elem_of_nil in Hx.
  - apply NoDup_cons in Hnd as [Ha Hnd].
    apply elem_of_cons in Hx as [->|Hx]; apply elem_of_cons in Hy as [->|Hy]; auto.
    + exfalso. apply Ha. rewrite Heq. by apply list_elem_of_fmap_2.
    + exfalso. apply Ha. rewrite <- Heq. by apply list_elem_of_fmap_2.
Qed.

Lemma length_filter_one_out {A} `{EqDecision A} (l : list A) (x : A) :
  NoDup l → x ∈ l → S (length (filter (λ y, y ≠ x) l)) = length l.
Proof.
  induction l as [|a l IH]; intros Hnd Hx.
  - by apply not_elem_of_nil in Hx.
  - apply NoDup_cons in Hnd as [Ha Hnd].
    destruct (decide (a = x)) as [->|Hne].
    + rewrite filter_cons_False by tauto. simpl. f_equal.
      f_equal. apply filter_all. intros y Hy ->. done.
    + apply elem_of_cons in Hx as [->|Hx]; [done|].
      rewrite filter_cons_True by done. simpl. f_equal. by apply IH.
Qed.

Lemma filter_ext_elem {A} (P Q : A → Prop) `{∀ x, Decision (P x)} `{∀ x, Decision (Q x)}
    (l : list A) :
  (∀ x, x ∈ l → P x ↔ Q x) → filter P l = filter Q l.
Proof.
  induction l as [|a l IH]; intros Hl; [done|].
  rewrite !filter_cons.
  rewrite IH by (intros x Hx; apply Hl; by right).
  destruct (decide (P a)) as [HP|HP], (decide (Q a)) as [HQ|HQ]; try done.
  - exfalso. apply HQ. apply Hl; [left|done].
  - exfalso. apply HP. apply Hl; [left|done].
Qed.

(** Deleting by the id of a row removes that row only, ids being unique. *)
Lemma delete_like_by_id (ls : list Like.t) (l : Like.t) :
  NoDup (Like.id <$> ls) → l ∈ ls →
  filter (λ x, ¬ (Like.id x = Like.id l)) ls = filter (λ x, x ≠ l) ls
  ∧ S (length (filter (λ x, x ≠ l) ls)) = length ls.
Proof.
  intros Hnd Hl. split.
  - apply filter_ext_elem. intros x Hx. split.
    + intros Hid ->. by apply Hid.
    + intros Hne Hid. apply Hne. by apply (NoDup_fmap_elem_inj Like.id ls).
  - apply length_filter_one_out; [by eapply NoDup_fmap_1|done].
Qed.

(** C10, as the code has it: with unique Like ids, one toggle call removes
    at most one Like row, and only a row that is the single Like row of the
    (post, user) pair; when the pair has exactly one Like row and the store
    answers the lookup and the delete, the call deletes exactly that row,
    reports liked=false and leaves every other Like row as it is. *)
Theorem like_toggle_deletes_at_most_one env user post db :
  NoDup (Like.id <$> Db.likes db) →
  ∃ db' r,
    post_api_posts_id_like env user post db = (db', r) ∧
    (length (Db.likes db) ≤ S (length (Db.likes db')))%nat ∧
    (∀ x, x ∈ Db.likes db → x ∉ Db.likes db' →
       likes_of post user db = [x] ∧ r = Res 200 (Liked false)) ∧
    (∀ l, likes_of post user db = [l] →
       fails env (SelectLike post user) = false →
       fails env (DeleteLike (Like.id l)) = false →
       r = Res 200 (Liked false) ∧
       Db.likes db' = filter (λ x, x ≠ l) (Db.likes db) ∧
       S (length (Db.likes db')) = length (Db.likes db)).
Proof.
  intros Hnd.
  destruct (post_api_posts_id_like env user post db) as [db' r] eqn:Hrun.
  exists db', r. split; [done|].
  rewrite like_toggle_run in Hrun.
  (* the branch that inserts keeps every row *)
  assert (Hinsert :
    (if fails env (InsertLike post user) then db
     else Db.with_likes
            (Db.likes db ++ [Like.mk (Store.fresh_id (Like.id <$> Db.likes db)) post user]) db,
     Res 200 (Liked true)) = (db', r) →
    (length (Db.likes db) ≤ S (length (Db.likes db')))%nat ∧
    ∀ x, x ∈ Db.likes db → x ∉ Db.likes db' →
         likes_of post user db = [x] ∧ r = Res 200 (Liked false)).
  { intros [= <- <-]. destruct (fails env (InsertLike post user)); simpl.
    - split; [lia|]. intros x Hx Hx'. done.
    - rewrite length_app. split; [lia|]. intros x Hx Hx'.
      exfalso. apply Hx'. apply elem_of_app. by left. }
  destruct (fails env (SelectLike post user)) eqn:Hsel.
  { destruct (Hinsert Hrun) as [Hlen Hkeep]. split; [exact Hlen|]. split; [exact Hkeep|].
    intros l _ Hsel'. congruence. }
  destruct (likes_of post user db) as [|l [|l' ls]] eqn:Hrows; simpl in Hrun.
  - destruct (Hinsert Hrun) as [Hlen Hkeep]. split; [exact Hlen|]. split; [exact Hkeep|].
    intros l Hl. congruence.
  - assert (Hl : l ∈ Db.likes db).
    { assert (l ∈ likes_of post user db) as Hin by (rewrite Hrows; left).
      unfold likes_of in Hin. by apply list_elem_of_filter in Hin as [_ ?]. }
    destruct (delete_like_by_id (Db.likes db) l Hnd Hl) as [Hfilter Hlen].
    injection Hrun as <- <-.
    destruct (fails env (DeleteLike (Like.id l))) eqn:Hdel; simpl.
    + split; [lia|]. split; [done|]. intros l0 [= <-] _ Hdel0. congruence.
    + rewrite Hfilter. split; [lia|]. split.
      * intros x Hx Hx'. split; [|done]. f_equal.
        destruct (decide (x = l)) as [->|Hne]; [done|].
        exfalso. apply Hx'. apply list_elem_of_filter. done.
      * intros l0 [= <-] _ _. done.
  - destruct (Hinsert Hrun) as [Hlen Hkeep]. split; [exact Hlen|]. split; [exact Hkeep|].
    intros l0 Hl0. congruence.
Qed.

Lemma like_toggle_deletes_at_most_one_witness :
  ∃ db' r,
    post_api_posts_id_like env_ok "B" 1 db_liked = (db', r) ∧
    r = Res 200 (Liked false) ∧
    Db.likes db' = [] ∧
    S (length (Db.likes db')) = length (Db.likes db_liked).
Proof.
  destruct (like_toggle_deletes_at_most_one env_ok "B" 1%N db_liked)
    as (db' & r & Hrun & _ & _ & Hone).
  { apply (bool_decide_unpack _). vm_compute. reflexivity. }
  exists db', r. split; [exact Hrun|].
  destruct (Hone (Like.mk 1 1 "B") eq_refl eq_refl eq_refl) as (Hr & Hlikes & Hlen).
  split; [exact Hr|]. split; [rewrite Hlikes; reflexivity|exact Hlen].
Defined.

(** C10 as stated fails: with two Like rows for (post 1, B) the lookup is an
    error with no data, and the call deletes none of them, inserts a third
    row and reports liked=true. *)
Lemma like_toggle_on_duplicates_inserts :
  likes_of 1 "B" db_liked_twice = [Like.mk 1 1 "B"; Like.mk 2 1 "B"] ∧
  ∃ db',
    post_api_posts_id_like env_ok "B" 1 db_liked_twice = (db', Res 200 (Liked true)) ∧
    Db.likes db' = [Like.mk 1 1 "B"; Like.mk 2 1 "B"; Like.mk 3 1 "B"].
Proof.
  split; [reflexivity|]. eexists. split; [vm_compute; reflexivity|reflexivity].
Qed.

(** ** Deleting and updating posts *)

Lemma delete_api_posts_id_run env user id db :
  delete_api_posts_id env user id db =
    if fails env (DeletePost id user)
    then (db, Res 500 (Error "Failed to delete post"))
    else (Db.with_posts
            (filter (λ p, ¬ (Post.id p = id ∧ Post.user_id p = user)) (Db.posts db)) db,
          Res 200 Success).
Proof.
  unfold delete_api_posts_id, try_catch, bind, await.
  by destruct (fails env (DeletePost id user)).
Qed.

Lemma with_posts_same db : Db.with_posts (Db.posts db) db = db.
Proof. by destruct db. Qed.

Lemma delete_nothing user id db :
  (∀ p, p ∈ Db.posts db → ¬ (Post.id p = id ∧ Post.user_id p = user)) →
  Db.with_posts (filter (λ p, ¬ (Post.id p = id ∧ Post.user_id p = user)) (Db.posts db)) db = db.
Proof.
  intros H. rewrite filter_all by exact H. apply with_posts_same.
Qed.

(** C8: when the store's delete succeeds the answer is 200 {success:true}
    whatever was removed: the posts left are those not matching (id, acting
    user), and deleting an id that does not exist or is not owned by the
    acting user gives the same answer and changes nothing. *)
Theorem delete_answers_success env user id db :
  fails env (DeletePost id user) = false →
  ∃ db',
    delete_api_posts_id env user id db = (db', Res 200 Success) ∧
    Db.posts db' = filter (λ p, ¬ (Post.id p = id ∧ Post.user_id p = user)) (Db.posts db) ∧
    ((∀ p, p ∈ Db.posts db → ¬ (Post.id p = id ∧ Post.user_id p = user)) → db' = db).
Proof.
  intros Hok. eexists. split; [|split].
  - rewrite delete_api_posts_id_run, Hok. reflexivity.
  - reflexivity.
  - apply delete_nothing.
Qed.

Lemma delete_answers_success_witness :
  ∃ db',
    delete_api_posts_id env_ok "B" 7 db_two = (db', Res 200 Success) ∧
    db' = db_two.
Proof.
  destruct (delete_answers_success env_ok "B" 7%N db_two eq_refl) as (db' & Hrun & _ & Hsame).
  exists db'. split; [exact Hrun|].
  apply Hsame.
  apply (proj1 (Forall_forall (λ p, ¬ (Post.id p = 7%N ∧ Post.user_id p = "B")) _)).
  apply (bool_decide_unpack _). vm_compute. reflexivity.
Defined.

Lemma not_owned_no_rows user id db :
  (∀ p, p ∈ Db.posts db → Post.id p = id → Post.user_id p ≠ user) →
  Store.eq_ Post.user_id user (Store.eq_ Post.id id (Db.posts db)) = [].
Proof.
  intros H. unfold Store.eq_. rewrite list_filter_filter.
  apply filter_none. intros p Hp [Hu Hi]. by apply (H p Hp).
Qed.

Lemma put_not_owned env user id content remove_image db :
  (∀ p, p ∈ Db.posts db → Post.id p = id → Post.user_id p ≠ user) →
  put_api_posts_id env user id content remove_image db
  = (db, Res 404 (Error "Post not found or unauthorized")).
Proof.
  intros H. unfold put_api_posts_id, try_catch, bind, query, await.
  destruct (fails env (SelectOwnPost id user)); simpl; [done|].
  by rewrite not_owned_no_rows.
Qed.

(** C6, as the code has it: when no post with the given id belongs to the
    acting principal, an update answers 404 and a delete answers 200
    {success:true} (500 if the store's delete fails); neither changes the
    store, and neither answers with a distinct forbidden status. *)
Theorem non_owner_update_404_delete_200 env user id content remove_image db :
  (∀ p, p ∈ Db.posts db → Post.id p = id → Post.user_id p ≠ user) →
  put_api_posts_id env user id content remove_image db
    = (db, Res 404 (Error "Post not found or unauthorized")) ∧
  delete_api_posts_id env user id db
    = (db, if fails env (DeletePost id user)
           then Res 500 (Error "Failed to delete post")
           else Res 200 Success).
Proof.
  intros H. split; [by apply put_not_owned|].
  rewrite delete_api_posts_id_run.
  destruct (fails env (DeletePost id user)); [done|].
  rewrite delete_nothing; [done|].
  intros p Hp [Hid Hu]. by apply (H p Hp).
Qed.

Lemma non_owner_update_404_delete_200_witness :
  put_api_posts_id env_ok "B" 1 (JS.JStr "mine now") JS.JUndefined db_two
    = (db_two, Res 404 (Error "Post not found or unauthorized")) ∧
  delete_api_posts_id env_ok "B" 1 db_two = (db_two, Res 200 Success).
Proof.
  apply (non_owner_update_404_delete_200 env_ok "B" 1%N (JS.JStr "mine now") JS.JUndefined db_two).
  apply (proj1 (Forall_forall (λ p, Post.id p = 1%N → Post.user_id p ≠ "B") _)).
  apply (bool_decide_unpack _). vm_compute. reflexivity.
Defined.

(** C6 as stated fails for delete: user B deletes post 1 of user A and is
    answered 200 {success:true}, not 404 (the post stays). *)
Lemma non_owner_delete_not_404 :
  Post.mk 1 "hello" None 10 "A" ∈ Db.posts db_two ∧
  delete_api_posts_id env_ok "B" 1 db_two = (db_two, Res 200 Success).
Proof. split; [left|reflexivity]. Qed.

(** ** Creating posts *)

(** C9: when the object-storage upload of a create-with-image request
    fails, the handler answers with an error (500) and the store is left as
    it was: no Post row is inserted. *)
Theorem upload_failure_inserts_nothing env user req_body_content file db :
  fails env (UploadImage (fileName_of env user file)) = true →
  ∃ db',
    post_api_posts_upload env user req_body_content (Some file) db
      = (db', Res 500 (Error "Failed to create post with image")) ∧
    db' = db ∧ Db.posts db' = Db.posts db.
Proof.
  intros Hup. exists db. split; [|done].
  unfold post_api_posts_upload, try_catch, bind, await.
  by rewrite Hup.
Qed.

Lemma upload_failure_inserts_nothing_witness :
  ∃ db',
    post_api_posts_upload env_upload_down "A" (Some "look") (Some cat_png) db_two
      = (db', Res 500 (Error "Failed to create post with image")) ∧
    db' = db_two ∧ Db.posts db' = Db.posts db_two.
Proof.
  apply (upload_failure_inserts_nothing env_upload_down "A" (Some "look") cat_png db_two).
  reflexivity.
Defined.

(** The rows after a text create: the old ones and at most one new row,
    whose content is the trimmed, non-empty request content. *)
Lemma post_api_posts_rows env user content db p :
  p ∈ Db.posts (post_api_posts env user content db).1 →
  p ∈ Db.posts db ∨
  ∃ c, content = JS.JStr c ∧ Post.content p = JS.trim c ∧ JS.trim c ≠ "".
Proof.
  unfold post_api_posts, try_catch, bind, await.
  destruct content as [| |b|z|c|]; simpl;
    repeat match goal with
           | |- context [if ?b then _ else _] => destruct b eqn:?; simpl
           end; auto.
  rewrite elem_of_app, list_elem_of_singleton. intros [Hp| ->]; [by left|].
  right. exists c. simpl. repeat split.
  intros Hempty. apply is_empty_spec in Hempty. congruence.
Qed.

(** The rows after a create with image: the old ones and at most one new
    row, whose content is the trimmed request content, or empty without one. *)
Lemma post_api_posts_upload_rows env user req_body_content req_file db p :
  p ∈ Db.posts (post_api_posts_upload env user req_body_content req_file db).1 →
  p ∈ Db.posts db ∨ Post.content p = JS.trim (or_string req_body_content "").
Proof.
  unfold post_api_posts_upload, try_catch, bind, await.
  destruct req_file as [file|]; simpl; [|auto].
  destruct (fails env (UploadImage _)); simpl; [auto|].
  destruct (fails env (InsertPost user)); simpl; [auto|].
  rewrite elem_of_app, list_elem_of_singleton. intros [Hp| ->]; [by left|by right].
Qed.

(** The rows after an update: each is an old row, possibly with its content
    replaced by the trimmed request content. *)
Lemma put_api_posts_id_rows env user id content remove_image db p :
  p ∈ Db.posts (put_api_posts_id env user id content remove_image db).1 →
  ∃ p0, p0 ∈ Db.posts db ∧
        (Post.content p = Post.content p0 ∨
         ∃ c, content = JS.JStr c ∧ Post.content p = JS.trim c).
Proof.
  assert (Hold : p ∈ Db.posts db →
    ∃ p0, p0 ∈ Db.posts db ∧
          (Post.content p = Post.content p0 ∨
           ∃ c, content = JS.JStr c ∧ Post.content p = JS.trim c)) by eauto.
  assert (Hnew : ∀ u,
    (upd_content u = None ∨ ∃ c, content = JS.JStr c ∧ upd_content u = Some (JS.trim c)) →
    p ∈ (λ p, if decide (Post.id p = id) then apply_updates u p else p) <$> Db.posts db →
    ∃ p0, p0 ∈ Db.posts db ∧
          (Post.content p = Post.content p0 ∨
           ∃ c, content = JS.JStr c ∧ Post.content p = JS.trim c)).
  { intros u Hu (p0 & -> & Hp0)%list_elem_of_fmap. exists p0. split; [done|].
    destruct (decide (Post.id p0 = id)); [|by left]. simpl.
    destruct Hu as [->|(c & Hc & ->)]; simpl; eauto. }
  unfold put_api_posts_id, try_catch, bind, query, await.
  destruct (fails env (SelectOwnPost id user)); simpl; [done|].
  destruct (Store.single _) as [[existing|] [fetchError|] n]; simpl; try done.
  destruct content as [| |b|z|c|]; simpl; try done;
    destruct (fails env (UpdatePost id)); simpl; try done;
    match goal with
    | |- context [Store.single ?rows] => destruct (Store.single rows) as [d [e|] n']
    end; simpl; apply Hnew; simpl; eauto.
Qed.

Lemma or_string_empty (c : string) : or_string (Some c) "" = c.
Proof. by destruct c. Qed.

(** C7, as the code has it: create text post persists only content that is
    non-empty after trimming, so it preserves "every post's content is
    non-empty after trimming".  Create with image and update persist the
    request's content trimmed, without a check: they preserve that
    invariant when the request's content is non-empty after trimming (for
    update, also when it carries no string content), and all three paths
    preserve "every post's content is trimmed". *)
Theorem post_content_invariants env user db :
  (content_not_blank db →
   ∀ content, content_not_blank (post_api_posts env user content db).1) ∧
  (content_not_blank db →
   ∀ c req_file, JS.trim c ≠ "" →
     content_not_blank (post_api_posts_upload env user (Some c) req_file db).1) ∧
  (content_not_blank db →
   ∀ id content remove_image, (∀ c, content = JS.JStr c → JS.trim c ≠ "") →
     content_not_blank (put_api_posts_id env user id content remove_image db).1) ∧
  (content_trimmed db →
   ∀ content req_body_content req_file id remove_image,
     content_trimmed (post_api_posts env user content db).1 ∧
     content_trimmed (post_api_posts_upload env user req_body_content req_file db).1 ∧
     content_trimmed (put_api_posts_id env user id content remove_image db).1).
Proof.
  split; [|split; [|split]].
  - intros Hinv content p Hp.
    apply post_api_posts_rows in Hp as [Hp|(c & _ & -> & Hc)]; [by apply Hinv|].
    by rewrite trim_idemp.
  - intros Hinv c req_file Hc p Hp.
    apply post_api_posts_upload_rows in Hp as [Hp| ->]; [by apply Hinv|].
    by rewrite or_string_empty, trim_idemp.
  - intros Hinv id content remove_image Hc p Hp.
    apply put_api_posts_id_rows in Hp as (p0 & Hp0 & [-> |(c & -> & ->)]).
    + by apply Hinv.
    + rewrite trim_idemp. by apply Hc.
  - intros Hinv content req_body_content req_file id remove_image.
    split; [|split]; intros p Hp.
    + apply post_api_posts_rows in Hp as [Hp|(c & _ & -> & _)]; [by apply Hinv|].
      apply trim_idemp.
    + apply post_api_posts_upload_rows in Hp as [Hp| ->]; [by apply Hinv|].
      apply trim_idemp.
    + apply put_api_posts_id_rows in Hp as (p0 & Hp0 & [-> |(c & -> & ->)]).
      * by apply Hinv.
      * apply trim_idemp.
Qed.

Lemma db_two_not_blank : content_not_blank db_two.
Proof.
  refine (proj1 (Forall_forall (λ p, JS.trim (Post.content p) ≠ "") _) _).
  apply (bool_decide_unpack _). vm_compute. reflexivity.
Defined.

Lemma post_content_invariants_witness :
  content_not_blank db_two ∧
  content_not_blank (post_api_posts env_ok "A" (JS.JStr "  hi  ") db_two).1 ∧
  content_not_blank (post_api_posts_upload env_ok "A" (Some " look ") (Some cat_png) db_two).1 ∧
  content_not_blank (put_api_posts_id env_ok "A" 1 (JS.JStr " edited ") JS.JUndefined db_two).1.
Proof.
  destruct (post_content_invariants env_ok "A" db_two) as (Hcreate & Hupload & Hupdate & _).
  split; [exact db_two_not_blank|]. split; [|split].
  - exact (Hcreate db_two_not_blank (JS.JStr "  hi  ")).
  - apply (Hupload db_two_not_blank " look " (Some cat_png)). discriminate.
  - apply (Hupdate db_two_not_blank 1%N (JS.JStr " edited ") JS.JUndefined).
    intros c [= <-]. discriminate.
Defined.

(** C7 as stated fails: a create-with-image request without content inserts
    a post whose content is the empty string. *)
Lemma upload_persists_empty_content :
  content_not_blank db_two ∧
  ∃ db' p,
    post_api_posts_upload env_ok "A" None (Some cat_png) db_two
      = (db', Res 201 (PostJson (Some p))) ∧
    p ∈ Db.posts db' ∧ Post.content p = "" ∧ JS.trim (Post.content p) = "" ∧
    ¬ content_not_blank db'.
Proof.
  split; [exact db_two_not_blank|].
  eexists _, _. split; [vm_compute; reflexivity|].
  assert (Hin : Post.mk 3 "" (Some "https://cdn.example/A/1700000000000_cat.png") 50 "A"
                ∈ Db.posts
                    (Db.mk
                       [Post.mk 1 "hello" None 10 "A"; Post.mk 2 "again" None 20 "A";
                        Post.mk 3 "" (Some "https://cdn.example/A/1700000000000_cat.png") 50 "A"]
                       [] [Comment.mk 1 "nice" 30 "B" 1; Comment.mk 2 "thanks" 25 "A" 1]
                       [Profile.mk "A" (Some "alice") None; Profile.mk "B" (Some "bob") None]
                       ["A/1700000000000_cat.png"])).
  { simpl. do 2 right. left. }
  split; [exact Hin|]. split; [reflexivity|]. split; [reflexivity|].
  intros H. by apply (H _ Hin).
Qed.

(** An update whose content is blank stores the empty string as well. *)
Lemma update_persists_blank_content :
  ∃ db' p,
    put_api_posts_id env_ok "A" 1 (JS.JStr "   ") JS.JUndefined db_two
      = (db', Res 200 (PostJson (Some p))) ∧
    Post.id p = 1%N ∧ Post.content p = "".
Proof. eexists _, _. split; [vm_compute; reflexivity|]. split; reflexivity. Qed.

(** ** A run through the handlers *)

(** User A posts "hello"; user B likes it, likes it again and comments
    "nice"; the feed read with [user_id=A] then shows the post with no like,
    one comment and not liked by the viewer. *)
Example hello_like_unlike_comment_feed :
  let '(db1, r1) := post_api_posts env_ok "A" (JS.JStr "hello") db_empty in
  let '(db2, r2) := post_api_posts_id_like env_ok "B" 1 db1 in
  let '(db3, r3) := post_api_posts_id_like env_ok "B" 1 db2 in
  let '(db4, r4) := post_api_posts_id_comments env_ok "B" 1 (JS.JStr "nice") db3 in
  let '(_, r5) := get_api_posts env_ok {["user_id" := "A"]} db4 in
  r1 = Res 201 (PostJson (Some (Post.mk 1 "hello" None 50 "A"))) ∧
  r2 = Res 200 (Liked true) ∧
  r3 = Res 200 (Liked false) ∧
  r4 = Res 201 (CommentJson
                  (EnrichedComment.mk
                     (CommentRow.mk 1 "nice" 50 "B" (Some (Author.mk (Some "bob") None)))
                     "bob" None)) ∧
  r5 = Res 200 (Feed [EnrichedPost.mk
                        (PostRow.mk 1 "hello" None 50 "A" (Some (Author.mk (Some "alice") None)))
                        "alice" None 0 1 false]).
Proof. vm_compute. repeat split. Qed.

(** * Further properties of the handlers *)

(** ** The auth middleware *)

Lemma split_space_head (w rest : string) :
  no_space w = true →
  (rest = "" ∨ ∃ r, rest = String " " r) →
  head (split_space (w +:+ rest)) = Some w.
Proof.
  intros Hw Hrest. induction w as [|c w IH]; simpl in *.
  - destruct Hrest as [->|[r ->]]; reflexivity.
  - apply andb_true_iff in Hw as [Hc Hw]. apply negb_true_iff in Hc.
    rewrite Hc. specialize (IH Hw).
    destruct (split_space (w +:+ rest)) as [|w' ws]; [done|].
    simpl in IH. by injection IH as ->.
Qed.

(** X1: the middleware lets a request through only with a user the identity
    service returned, without error, for the second space-separated piece of
    a header that starts with "Bearer "; in every other case it answers 401
    and neither runs the handler nor touches the store. *)
Theorem authenticate_gate getUser req_headers_authorization next db :
  authenticate getUser req_headers_authorization next db
    = (db, Res 401 (Error "Missing or invalid token")) ∨
  authenticate getUser req_headers_authorization next db
    = (db, Res 401 (Error "Invalid token")) ∨
  ∃ header user,
    req_headers_authorization = Some header ∧
    String.prefix "Bearer " header = true ∧
    Store.error (getUser (split_space header !! 1%nat)) = None ∧
    Store.data (getUser (split_space header !! 1%nat)) = Some (Some user) ∧
    authenticate getUser req_headers_authorization next db = next user db.
Proof.
  unfold authenticate.
  destruct req_headers_authorization as [header|]; [|by left].
  destruct (JS.is_empty header); simpl; [by left|].
  destruct (String.prefix "Bearer " header) eqn:Hprefix; simpl; [|by left].
  destruct (getUser (split_space header !! 1%nat)) as [[[user|]|] [e|] n] eqn:Hget; simpl;
    try (right; left; reflexivity).
  right; right. exists header, user. by rewrite Hget.
Qed.

Lemma bearer_prefix (x : string) : String.prefix "Bearer " ("Bearer " +:+ x) = true.
Proof. simpl. by destruct x. Qed.

Lemma split_space_bearer (x : string) :
  split_space ("Bearer " +:+ x) !! 1%nat = head (split_space x).
Proof.
  change (split_space ("Bearer " +:+ x)) with ("Bearer" :: split_space x).
  by destruct (split_space x).
Qed.

(** X2: the token looked up is what follows "Bearer " up to the next space: a
    header "Bearer <w>" and a header "Bearer <w> <anything>" are the same
    request, let through when the identity service answers for <w> with a
    user and no error, and answered 401 "Invalid token" otherwise. *)
Theorem authenticate_token getUser w rest next db :
  no_space w = true →
  (rest = "" ∨ ∃ r, rest = String " " r) →
  authenticate getUser (Some ("Bearer " +:+ w +:+ rest)) next db =
    match Store.error (getUser (Some w)), Store.data (getUser (Some w)) with
    | None, Some (Some user) => next user db
    | _, _ => (db, Res 401 (Error "Invalid token"))
    end.
Proof.
  intros Hw Hrest. unfold authenticate.
  change (JS.is_empty ("Bearer " +:+ w +:+ rest)) with false.
  rewrite bearer_prefix.
  assert (Htoken : split_space ("Bearer " +:+ w +:+ rest) !! 1%nat = Some w).
  { rewrite split_space_bearer. by apply split_space_head. }
  cbv zeta. rewrite Htoken. simpl.
  by destruct (getUser (Some w)) as [[[user|]|] [e|] n].
Qed.

Lemma authenticate_token_witness :
  authenticate getUser_ab (Some "Bearer tokA trailing")
    (λ user, post_api_posts_id_like env_ok user 1) db_two
  = post_api_posts_id_like env_ok "A" 1 db_two.
Proof.
  apply (authenticate_token getUser_ab "tokA" " trailing"
           (λ user, post_api_posts_id_like env_ok user 1) db_two).
  - reflexivity.
  - right. by eexists.
Defined.

(** ** Creating a text post *)

Lemma post_api_posts_string env user s db :
  post_api_posts env user (JS.JStr s) db =
    if JS.is_empty (JS.trim s) then (db, Res 400 (Error "Content is required"))
    else if fails env (InsertPost user) then (db, Res 500 (Error "Failed to create post"))
    else
      let row := Post.mk (Store.fresh_id (Post.id <$> Db.posts db)) (JS.trim s) None
                   (db_now env) user in
      (Db.with_posts (Db.posts db ++ [row]) db, Res 201 (PostJson (Some row))).
Proof.
  unfold post_api_posts, try_catch, bind, await. simpl.
  destruct s as [|c s]; [done|]. simpl JS.is_empty at 1. cbv [negb].
  destruct (JS.is_empty (JS.trim (String c s))); [done|].
  by destruct (fails env (InsertPost user)).
Qed.

(** X3: a text post is refused with 400 "Content is required" exactly when its
    content is falsy (absent, null, false, 0, the empty string) or a string
    of white space only; the store is then left as it is. *)
Theorem create_requires_content env user content db :
  (JS.truthy content = false ∨ ∃ s, content = JS.JStr s ∧ JS.trim s = "") ↔
  post_api_posts env user content db = (db, Res 400 (Error "Content is required")).
Proof.
  split.
  - intros [Hfalsy|(s & -> & Hblank)].
    + unfold post_api_posts, try_catch. by rewrite Hfalsy.
    + rewrite post_api_posts_string, Hblank. reflexivity.
  - destruct content as [| |b|z|s|]; simpl.
    + by left.
    + by left.
    + destruct b; [|by left]. discriminate.
    + destruct (z =? 0)%Z eqn:Hz; [by left|].
      unfold post_api_posts, try_catch; simpl. rewrite Hz. discriminate.
    + rewrite post_api_posts_string.
      destruct (JS.is_empty (JS.trim s)) eqn:Hs.
      * intros _. right. exists s. split; [done|]. by apply is_empty_spec.
      * destruct (fails env (InsertPost user)); discriminate.
    + discriminate.
Qed.

(** X4: a text post whose content is a string with something besides white
    space, on a store that takes the insert, is answered 201 with the new
    row: authored by the caller, with the content trimmed and no image,
    appended to the posts, every other table and every older post as before. *)
Theorem create_inserts_trimmed_post env user s db :
  JS.trim s ≠ "" →
  fails env (InsertPost user) = false →
  ∃ db' row,
    post_api_posts env user (JS.JStr s) db = (db', Res 201 (PostJson (Some row))) ∧
    Db.posts db' = Db.posts db ++ [row] ∧
    Post.user_id row = user ∧ Post.content row = JS.trim s ∧ Post.image_url row = None ∧
    (∀ p, p ∈ Db.posts db → Post.id p ≠ Post.id row) ∧
    Db.likes db' = Db.likes db ∧ Db.comments db' = Db.comments db ∧
    Db.profiles db' = Db.profiles db ∧ Db.images db' = Db.images db.
Proof.
  intros Hs Hok. eexists _, _. split.
  - rewrite post_api_posts_string, Hok.
    destruct (JS.is_empty (JS.trim s)) eqn:He; [by apply is_empty_spec in He|].
    reflexivity.
  - simpl. repeat split; try done.
    intros p Hp Heq.
    pose proof (fresh_id_above (Post.id <$> Db.posts db) (Post.id p)
                  (list_elem_of_fmap_2 Post.id _ _ Hp)) as Hlt.
    rewrite Heq in Hlt. lia.
Qed.

Lemma create_inserts_trimmed_post_witness :
  ∃ db' row,
    post_api_posts env_ok "A" (JS.JStr "  hello  ") db_empty
      = (db', Res 201 (PostJson (Some row))) ∧
    Db.posts db' = [row] ∧ Post.user_id row = "A" ∧ Post.content row = "hello".
Proof.
  destruct (create_inserts_trimmed_post env_ok "A" "  hello  " db_empty)
    as (db' & row & Hrun & Hposts & Hu & Hc & _); [discriminate|reflexivity|].
  exists db', row. split; [exact Hrun|]. split; [exact Hposts|]. split; [exact Hu|exact Hc].
Defined.

(** X5: a text post whose content is truthy but not a string (true, a non-zero
    number, an object), or whose insert the store fails, is answered 500
    "Failed to create post", with the store left as it is. *)
Theorem create_fails_with_500 env user content db :
  (JS.truthy content = true ∧ ∀ s, content ≠ JS.JStr s) ∨
  (∃ s, content = JS.JStr s ∧ JS.trim s ≠ "" ∧ fails env (InsertPost user) = true) →
  post_api_posts env user content db = (db, Res 500 (Error "Failed to create post")).
Proof.
  intros [[Htruthy Hnostr]|(s & -> & Hs & Hdown)].
  - unfold post_api_posts, try_catch. rewrite Htruthy; simpl.
    destruct content as [| |b|z|s|]; simpl; try done. by destruct (Hnostr s).
  - rewrite post_api_posts_string, Hdown.
    destruct (JS.is_empty (JS.trim s)) eqn:He; [by apply is_empty_spec in He|].
    reflexivity.
Qed.

Lemma create_fails_with_500_witness :
  post_api_posts env_ok "A" (JS.JNum 42) db_two
    = (db_two, Res 500 (Error "Failed to create post")) ∧
  post_api_posts env_insert_down "A" (JS.JStr "hello") db_two
    = (db_two, Res 500 (Error "Failed to create post")).
Proof.
  split.
  - apply (create_fails_with_500 env_ok "A" (JS.JNum 42) db_two).
    left. split; [reflexivity|discriminate].
  - apply (create_fails_with_500 env_insert_down "A" (JS.JStr "hello") db_two).
    right. exists "hello". split; [reflexivity|]. split; [discriminate|reflexivity].
Defined.

(** ** Creating a post with an image *)

Lemma post_api_posts_upload_run env user req_body_content file db :
  post_api_posts_upload env user req_body_content (Some file) db =
    let fileName := fileName_of env user file in
    if fails env (UploadImage fileName)
    then (db, Res 500 (Error "Failed to create post with image"))
    else
      let db1 := Db.with_images (Db.images db ++ [objectKey env fileName]) db in
      if fails env (InsertPost user)
      then (db1, Res 500 (Error "Failed to create post with image"))
      else
        let row := Post.mk (Store.fresh_id (Post.id <$> Db.posts db))
                     (JS.trim (or_string req_body_content ""))
                     (Some (publicUrl env fileName)) (db_now env) user in
        (Db.with_posts (Db.posts db ++ [row]) db1, Res 201 (PostJson (Some row))).
Proof.
  unfold post_api_posts_upload, try_catch, bind, await. cbv zeta.
  destruct (fails env (UploadImage _)); simpl; [done|].
  by destruct (fails env (InsertPost user)).
Qed.

(** X7: when the image is stored but the store then fails the insert, the
    request is answered 500 and no post is created, yet the bucket keeps the
    one object it gained, under the key the storage service gave it: nothing
    removes it. *)
Theorem upload_then_failed_insert_leaves_object env user req_body_content file db :
  fails env (UploadImage (fileName_of env user file)) = false →
  fails env (InsertPost user) = true →
  ∃ db',
    post_api_posts_upload env user req_body_content (Some file) db
      = (db', Res 500 (Error "Failed to create post with image")) ∧
    Db.posts db' = Db.posts db ∧
    Db.images db' = Db.images db ++ [objectKey env (fileName_of env user file)].
Proof.
  intros Hup Hins. eexists. split.
  - rewrite post_api_posts_upload_run. cbv zeta. rewrite Hup, Hins. reflexivity.
  - done.
Qed.

Lemma upload_then_failed_insert_leaves_object_witness :
  ∃ db',
    post_api_posts_upload env_insert_down "A" (Some "look") (Some cat_v2_png) db_two
      = (db', Res 500 (Error "Failed to create post with image")) ∧
    Db.posts db' = Db.posts db_two ∧
    Db.images db' = ["A/1700000000000_cat"].
Proof.
  destruct (upload_then_failed_insert_leaves_object env_insert_down "A" (Some "look")
              cat_v2_png db_two eq_refl eq_refl) as (db' & Hrun & Hposts & Himages).
  exists db'. split; [exact Hrun|]. split; [exact Hposts|].
  rewrite Himages. vm_compute. reflexivity.
Defined.

(** X8: whatever the request, a post row is inserted by the upload handler only
    after an upload that went through: if the posts change, exactly one row
    was appended, it belongs to the caller, a file was attached, this
    request's upload for "<user id>/<Date.now()>_<original name>" added one
    object to the bucket (under the key the storage service gave it), and
    the row's image_url is the public URL the client gives for that same
    file name. *)
Theorem upload_post_only_with_image env user req_body_content req_file db :
  ∃ db' r,
    post_api_posts_upload env user req_body_content req_file db = (db', r) ∧
    (Db.posts db' = Db.posts db ∨
     ∃ file row,
       req_file = Some file ∧ r = Res 201 (PostJson (Some row)) ∧
       Db.posts db' = Db.posts db ++ [row] ∧
       Db.images db' = Db.images db ++ [objectKey env (fileName_of env user file)] ∧
       Post.image_url row = Some (publicUrl env (fileName_of env user file)) ∧
       Post.user_id row = user ∧
       Post.content row = JS.trim (or_string req_body_content "")).
Proof.
  destruct req_file as [file|].
  - rewrite post_api_posts_upload_run. cbv zeta.
    destruct (fails env (UploadImage _)); [eexists _, _; split; [done|by left]|].
    destruct (fails env (InsertPost user)); [eexists _, _; split; [done|by left]|].
    eexists _, _. split; [done|]. right. eexists _, _. done.
  - eexists _, _. split; [done|]. by left.
Qed.

(** ** Deleting a post *)

Lemma filter_filter_same {A} (P : A → Prop) `{∀ x, Decision (P x)} (l : list A) :
  filter P (filter P l) = filter P l.
Proof.
  apply filter_all. intros x Hx. by apply list_elem_of_filter in Hx as [? _].
Qed.

(** X9: deleting is idempotent: on a store that answers, a second delete of the
    same id by the same user is answered 200 {success:true} like the first
    and leaves the store as the first delete left it. *)
Theorem delete_twice_is_delete_once env user id db :
  fails env (DeletePost id user) = false →
  ∃ db1,
    delete_api_posts_id env user id db = (db1, Res 200 Success) ∧
    delete_api_posts_id env user id db1 = (db1, Res 200 Success).
Proof.
  intros Hok. eexists. split.
  - rewrite delete_api_posts_id_run, Hok. reflexivity.
  - rewrite delete_api_posts_id_run, Hok. simpl.
    rewrite filter_filter_same. reflexivity.
Qed.

Lemma delete_twice_is_delete_once_witness :
  ∃ db1,
    delete_api_posts_id env_ok "A" 1 db_two = (db1, Res 200 Success) ∧
    delete_api_posts_id env_ok "A" 1 db1 = (db1, Res 200 Success).
Proof. apply (delete_twice_is_delete_once env_ok "A" 1%N db_two). reflexivity. Defined.

(** X10: after the owner's delete, a feed read no longer shows a post with that
    id by that user, and still shows every other post. *)
Theorem deleted_post_leaves_feed env user id req_query db :
  fails env (DeletePost id user) = false →
  fails env SelectPosts = false →
  ∃ db1 feed,
    delete_api_posts_id env user id db = (db1, Res 200 Success) ∧
    get_api_posts env req_query db1 = (db1, Res 200 (Feed feed)) ∧
    (∀ e, e ∈ feed →
       ¬ (PostRow.id (EnrichedPost.post e) = id ∧
          PostRow.user_id (EnrichedPost.post e) = user)) ∧
    (∀ p, p ∈ Db.posts db → ¬ (Post.id p = id ∧ Post.user_id p = user) →
       ∃ e, e ∈ feed ∧
            PostRow.id (EnrichedPost.post e) = Post.id p ∧
            PostRow.user_id (EnrichedPost.post e) = Post.user_id p ∧
            PostRow.content (EnrichedPost.post e) = Post.content p).
Proof.
  intros Hdel Hsel. eexists _, _. split; [|split; [|split]].
  - rewrite delete_api_posts_id_run, Hdel. reflexivity.
  - rewrite get_api_posts_run, Hsel. reflexivity.
  - intros e (row & -> & Hrow)%list_elem_of_fmap. simpl.
    rewrite (order_Permutation _ _ _) in Hrow.
    apply list_elem_of_fmap in Hrow as (p & -> & Hp). simpl in *.
    by apply list_elem_of_filter in Hp as [? _].
  - intros p Hp Hkeep.
    set (db1 := Db.with_posts _ db).
    exists (enriched_post env (currentUserId req_query) db1 (post_row db1 p)).
    split; [|done].
    apply list_elem_of_fmap_2. rewrite (order_Permutation _ _ _).
    apply list_elem_of_fmap_2. simpl. by apply list_elem_of_filter.
Qed.

Lemma deleted_post_leaves_feed_witness :
  ∃ db1 feed,
    delete_api_posts_id env_ok "A" 1 db_two = (db1, Res 200 Success) ∧
    get_api_posts env_ok ∅ db1 = (db1, Res 200 (Feed feed)) ∧
    (∀ e, e ∈ feed →
       ¬ (PostRow.id (EnrichedPost.post e) = 1%N ∧
          PostRow.user_id (EnrichedPost.post e) = "A")).
Proof.
  destruct (deleted_post_leaves_feed env_ok "A" 1%N ∅ db_two eq_refl eq_refl)
    as (db1 & feed & Hdel & Hfeed & Hgone & _).
  exists db1, feed. split; [exact Hdel|]. split; [exact Hfeed|exact Hgone].
Defined.

(** ** Updating a post *)

Lemma filter_unique_key {A K} `{EqDecision K} (key : A → K) (l : list A) (x : A) :
  NoDup (key <$> l) → x ∈ l → filter (λ y, key y = key x) l = [x].
Proof.
  induction l as [|a l IH]; simpl; intros Hnd Hx.
  - by apply not_elem_of_nil in Hx.
  - apply NoDup_cons in Hnd as [Ha Hnd].
    destruct (decide (key a = key x)) as [Heq|Hne].
    + rewrite filter_cons_True by done.
      assert (a = x) as ->.
      { apply elem_of_cons in Hx as [->|Hx]; [done|].
        exfalso. apply Ha. rewrite Heq. by apply list_elem_of_fmap_2. }
      f_equal. apply filter_none. intros y Hy Hyx.
      apply Ha. rewrite <- Hyx. by apply list_elem_of_fmap_2.
    + rewrite filter_cons_False by done.
      apply elem_of_cons in Hx as [->|Hx]; [done|]. by apply IH.
Qed.

Lemma filter_fmap_key {A K} `{EqDecision K} (key : A → K) (g : A → A) (k : K) (l : list A) :
  (∀ x, key (g x) = key x) →
  filter (λ y, key y = k) (g <$> l) = g <$> filter (λ y, key y = k) l.
Proof.
  intros Hg. induction l as [|a l IH]; [done|].
  rewrite fmap_cons, !filter_cons, Hg, IH.
  by destruct (decide (key a = k)).
Qed.

(** The update handler on a row the caller owns, ids being unique. *)
Lemma put_api_posts_id_owner env user id content remove_image db p0 :
  NoDup (Post.id <$> Db.posts db) →
  p0 ∈ Db.posts db → Post.id p0 = id → Post.user_id p0 = user →
  fails env (SelectOwnPost id user) = false →
  put_api_posts_id env user id content remove_image db =
    match content with
    | JS.JUndefined | JS.JStr _ =>
        if fails env (UpdatePost id) then (db, Res 500 (Error "Failed to update post"))
        else
          let u := mk_updates (JS.call_trim content)
                     (if JS.truthy remove_image then Some None else None) in
          (Db.with_posts
             ((λ p, if decide (Post.id p = id) then apply_updates u p else p) <$> Db.posts db)
             db,
           Res 200 (PostJson (Some (apply_updates u p0))))
    | _ => (db, Res 500 (Error "Failed to update post"))
    end.
Proof.
  intros Hnd Hp0 Hid Hu Hsel.
  assert (Hrows : ∀ l, NoDup (Post.id <$> l) → p0 ∈ l →
                       filter (λ p, Post.id p = id) l = [p0]).
  { intros l Hl Hin. rewrite <- Hid. by apply filter_unique_key. }
  assert (Hown : Store.eq_ Post.user_id user (Store.eq_ Post.id id (Db.posts db)) = [p0]).
  { unfold Store.eq_. rewrite (Hrows _ Hnd Hp0).
    by rewrite filter_cons_True, filter_nil. }
  unfold put_api_posts_id, try_catch, bind, query, await.
  rewrite Hsel, Hown. simpl.
  assert (Hupd : ∀ u,
    Store.single
      (Store.eq_ Post.id id
         ((λ p, if decide (Post.id p = id) then apply_updates u p else p) <$> Db.posts db))
    = Store.ok (apply_updates u p0)).
  { intros u. unfold Store.eq_.
    rewrite filter_fmap_key by (intros x; by destruct (decide (Post.id x = id))).
    rewrite (Hrows _ Hnd Hp0). simpl. by rewrite decide_True. }
  destruct content as [| |b|z|s|]; simpl; try done;
    destruct (fails env (UpdatePost id)); simpl; try done;
    by rewrite Hupd.
Qed.

(** X11: an update by the owner with string content, on a store that answers
    and has unique post ids: the answer is 200 with the updated row, whose
    content is the request's content trimmed and whose image_url is cleared
    when remove_image is truthy and kept otherwise; its id, author and
    creation time are as before, and so is every post with another id. *)
Theorem update_by_owner_edits_content_and_image env user id s remove_image db p0 :
  NoDup (Post.id <$> Db.posts db) →
  p0 ∈ Db.posts db → Post.id p0 = id → Post.user_id p0 = user →
  fails env (SelectOwnPost id user) = false →
  fails env (UpdatePost id) = false →
  ∃ db' p1,
    put_api_posts_id env user id (JS.JStr s) remove_image db
      = (db', Res 200 (PostJson (Some p1))) ∧
    Post.content p1 = JS.trim s ∧
    Post.image_url p1 = (if JS.truthy remove_image then None else Post.image_url p0) ∧
    Post.id p1 = Post.id p0 ∧ Post.user_id p1 = Post.user_id p0 ∧
    Post.created_at p1 = Post.created_at p0 ∧
    Db.posts db' = (λ p, if decide (Post.id p = id) then p1 else p) <$> Db.posts db ∧
    p1 ∈ Db.posts db'.
Proof.
  intros Hnd Hp0 Hid Hu Hsel Hupd.
  set (u := mk_updates (Some (JS.trim s)) (if JS.truthy remove_image then Some None else None)).
  assert (Hmap :
    (λ p, if decide (Post.id p = id) then apply_updates u p else p) <$> Db.posts db
    = (λ p, if decide (Post.id p = id) then apply_updates u p0 else p) <$> Db.posts db).
  { apply Forall_fmap_ext_1, Forall_forall. intros p Hp.
    destruct (decide (Post.id p = id)) as [Hpid|]; [|done].
    f_equal. apply (NoDup_fmap_elem_inj Post.id (Db.posts db)); congruence. }
  exists (Db.with_posts
            ((λ p, if decide (Post.id p = id) then apply_updates u p0 else p) <$> Db.posts db)
            db), (apply_updates u p0).
  split.
  - rewrite (put_api_posts_id_owner env user id _ remove_image db p0) by done.
    rewrite Hupd. cbv zeta. simpl JS.call_trim. fold u. by rewrite Hmap.
  - simpl. split; [done|]. split; [by destruct (JS.truthy remove_image)|].
    split; [done|]. split; [done|]. split; [done|]. split; [done|].
    apply list_elem_of_fmap. exists p0. split; [|done]. by rewrite decide_True.
Qed.

Lemma update_by_owner_edits_content_and_image_witness :
  ∃ db' p1,
    put_api_posts_id env_ok "A" 1 (JS.JStr " edited ") (JS.JBool true) db_two
      = (db', Res 200 (PostJson (Some p1))) ∧
    Post.content p1 = "edited" ∧ Post.image_url p1 = None ∧ p1 ∈ Db.posts db'.
Proof.
  destruct (update_by_owner_edits_content_and_image env_ok "A" 1%N " edited " (JS.JBool true)
              db_two (Post.mk 1 "hello" None 10 "A"))
    as (db' & p1 & Hrun & Hc & Hi & _ & _ & _ & _ & Hin).
  - apply (bool_decide_unpack _). vm_compute. reflexivity.
  - left.
  - reflexivity.
  - reflexivity.
  - reflexivity.
  - reflexivity.
  - exists db', p1. split; [exact Hrun|]. split; [exact Hc|]. split; [exact Hi|exact Hin].
Defined.



(** What an update can do to the posts, whatever the request and the store:
    either nothing, or the rows with the given id get the same [updates]. *)
Lemma put_api_posts_id_shape env user id content remove_image db :
  let db' := (put_api_posts_id env user id content remove_image db).1 in
  Db.likes db' = Db.likes db ∧ Db.comments db' = Db.comments db ∧
  Db.profiles db' = Db.profiles db ∧ Db.images db' = Db.images db ∧
  (Db.posts db' = Db.posts db ∨
   ∃ u, (upd_image_url u = None ∨ upd_image_url u = Some None) ∧
        Db.posts db' =
          (λ p, if decide (Post.id p = id) then apply_updates u p else p) <$> Db.posts db).
Proof.
  unfold put_api_posts_id, try_catch, bind, query, await.
  assert (Hsame : ∀ db0 : Db.t,
    Db.likes db0 = Db.likes db0 ∧ Db.comments db0 = Db.comments db0 ∧
    Db.profiles db0 = Db.profiles db0 ∧ Db.images db0 = Db.images db0 ∧
    (Db.posts db0 = Db.posts db0 ∨
     ∃ u, (upd_image_url u = None ∨ upd_image_url u = Some None) ∧
          Db.posts db0 =
            (λ p, if decide (Post.id p = id) then apply_updates u p else p) <$> Db.posts db0))
    by (intros db0; repeat split; by left).
  destruct (fails env (SelectOwnPost id user)); simpl; [apply Hsame|].
  destruct (Store.single _) as [[existing|] [fetchError|] n]; simpl; try apply Hsame.
  assert (Himg : ∀ c, upd_image_url
                        (mk_updates c (if JS.truthy remove_image then Some None else None)) = None
                    ∨ upd_image_url
                        (mk_updates c (if JS.truthy remove_image then Some None else None))
                      = Some None).
  { intros c. simpl. destruct (JS.truthy remove_image); auto. }
  destruct content as [| |b|z|s|]; simpl; try apply Hsame;
    destruct (fails env (UpdatePost id)); simpl; try apply Hsame;
    match goal with
    | |- context [Store.single ?rows] => destruct (Store.single rows) as [d [e|] n']
    end; simpl; repeat split; try done; right; eexists; (split; [apply Himg|done]).
Qed.

(** X13: no update, whatever the request, the caller and the store's answers,
    adds or removes a post or changes a post's id, author or creation time;
    the image_url of a post is kept or cleared, never set; and no other
    table is touched. *)
Theorem update_keeps_identity_of_posts env user id content remove_image db :
  ∃ db' r,
    put_api_posts_id env user id content remove_image db = (db', r) ∧
    Forall2 (λ p p',
               Post.id p' = Post.id p ∧ Post.user_id p' = Post.user_id p ∧
               Post.created_at p' = Post.created_at p ∧
               (Post.image_url p' = Post.image_url p ∨ Post.image_url p' = None))
      (Db.posts db) (Db.posts db') ∧
    Db.likes db' = Db.likes db ∧ Db.comments db' = Db.comments db ∧
    Db.profiles db' = Db.profiles db ∧ Db.images db' = Db.images db.
Proof.
  pose proof (put_api_posts_id_shape env user id content remove_image db) as Hshape.
  destruct (put_api_posts_id env user id content remove_image db) as [db' r].
  simpl in Hshape. destruct Hshape as (Hl & Hc & Hp & Hi & Hposts).
  exists db', r. split; [done|]. split; [|done].
  destruct Hposts as [->|(u & Himg & ->)].
  - apply Forall_Forall2_diag, Forall_forall. intros p _. auto.
  - apply Forall2_fmap_r, Forall_Forall2_diag, Forall_forall. intros p _. simpl.
    destruct (decide (Post.id p = id)); [|auto]. simpl.
    repeat split. destruct Himg as [->| ->]; simpl; auto.
Qed.

(** ** More on the like toggle *)

(** X14: the toggle answers 200 with a liked flag in every case, and the flag
    says what the handler tried, not what the store did: when the store
    fails the insert the answer is still liked=true, and when it fails the
    delete the answer is still liked=false, with the likes unchanged. *)
Theorem like_toggle_ignores_write_errors env user post db :
  (∃ db' liked, post_api_posts_id_like env user post db = (db', Res 200 (Liked liked))) ∧
  (likes_of post user db = [] → fails env (InsertLike post user) = true →
   post_api_posts_id_like env user post db = (db, Res 200 (Liked true))) ∧
  (∀ l, likes_of post user db = [l] → fails env (SelectLike post user) = false →
        fails env (DeleteLike (Like.id l)) = true →
        post_api_posts_id_like env user post db = (db, Res 200 (Liked false))).
Proof.
  rewrite like_toggle_run. split; [|split].
  - destruct (if fails env (SelectLike post user) then None else _) as [existing|];
      eexists _, _; reflexivity.
  - intros Hnone Hins. rewrite Hnone, Hins. by destruct (fails env (SelectLike post user)).
  - intros l Hone Hsel Hdel. by rewrite Hone, Hsel; simpl; rewrite Hdel.
Qed.

Lemma like_toggle_ignores_write_errors_witness :
  post_api_posts_id_like env_like_writes_down "B" 1 db_two = (db_two, Res 200 (Liked true)) ∧
  post_api_posts_id_like env_like_writes_down "B" 1 db_liked = (db_liked, Res 200 (Liked false)).
Proof.
  split.
  - apply (proj1 (proj2 (like_toggle_ignores_write_errors env_like_writes_down "B" 1%N db_two)));
      reflexivity.
  - apply (proj2 (proj2 (like_toggle_ignores_write_errors env_like_writes_down "B" 1%N db_liked))
             (Like.mk 1 1 "B")); reflexivity.
Defined.

(** X15: with unique Like ids, a toggle for one (post, user) pair leaves the Like
    rows of every other pair exactly as they were, and touches no other
    table. *)
Theorem like_toggle_leaves_other_pairs env user post db post' user' :
  NoDup (Like.id <$> Db.likes db) →
  ¬ (post' = post ∧ user' = user) →
  ∃ db' r,
    post_api_posts_id_like env user post db = (db', r) ∧
    likes_of post' user' db' = likes_of post' user' db ∧
    Db.posts db' = Db.posts db ∧ Db.comments db' = Db.comments db ∧
    Db.profiles db' = Db.profiles db ∧ Db.images db' = Db.images db.
Proof.
  intros Hnd Hother.
  destruct (post_api_posts_id_like env user post db) as [db' r] eqn:Hrun.
  exists db', r. split; [done|].
  rewrite like_toggle_run in Hrun.
  assert (Hinsert :
    (if fails env (InsertLike post user) then db
     else Db.with_likes
            (Db.likes db ++ [Like.mk (Store.fresh_id (Like.id <$> Db.likes db)) post user]) db,
     Res 200 (Liked true)) = (db', r) →
    likes_of post' user' db' = likes_of post' user' db ∧
    Db.posts db' = Db.posts db ∧ Db.comments db' = Db.comments db ∧
    Db.profiles db' = Db.profiles db ∧ Db.images db' = Db.images db).
  { intros [= <- <-]. destruct (fails env (InsertLike post user)); [done|].
    split; [|done]. unfold likes_of; simpl.
    rewrite filter_app, filter_cons_False, filter_nil, app_nil_r; [done|].
    simpl. intros [<- <-]. by apply Hother. }
  destruct (fails env (SelectLike post user)); [by apply Hinsert|].
  destruct (likes_of post user db) as [|l [|l' ls]] eqn:Hrows; simpl in Hrun;
    try by apply Hinsert.
  injection Hrun as <- <-.
  destruct (fails env (DeleteLike (Like.id l))); [done|].
  split; [|done]. unfold likes_of; simpl.
  assert (Hl : l ∈ likes_of post user db) by (rewrite Hrows; left).
  unfold likes_of in Hl. apply list_elem_of_filter in Hl as [[Hlp Hlu] Hl].
  rewrite list_filter_filter. apply filter_ext_elem. intros x Hx. split; [tauto|].
  intros [Hxp Hxu]. split; [done|]. intros Hid.
  assert (x = l) as -> by (by apply (NoDup_fmap_elem_inj Like.id (Db.likes db))).
  apply Hother. split; congruence.
Qed.

Lemma like_toggle_leaves_other_pairs_witness :
  ∃ db' r,
    post_api_posts_id_like env_ok "A" 1 db_liked = (db', r) ∧
    likes_of 1 "B" db' = likes_of 1 "B" db_liked.
Proof.
  destruct (like_toggle_leaves_other_pairs env_ok "A" 1%N db_liked 1%N "B")
    as (db' & r & Hrun & Hsame & _).
  - apply (bool_decide_unpack _). vm_compute. reflexivity.
  - intros [_ ?]. discriminate.
  - exists db', r. split; [exact Hrun|exact Hsame].
Defined.

(** ** More on the feed and the comments *)

(** X17: the author shown for a post of the feed is never empty: it is the
    username of a profile row of the post's user, or "Unknown" when the join
    gives no profile or no (or an empty) username; likewise the avatar is a
    non-empty URL of such a profile row or null. *)
Theorem feed_author_falls_back env req_query db :
  fails env SelectPosts = false →
  ∃ feed,
    get_api_posts env req_query db = (db, Res 200 (Feed feed)) ∧
    ∀ e, e ∈ feed →
      EnrichedPost.author e ≠ "" ∧
      (EnrichedPost.author e = "Unknown" ∨
       ∃ pr, pr ∈ Db.profiles db ∧
             Profile.id pr = PostRow.user_id (EnrichedPost.post e) ∧
             Profile.username pr = Some (EnrichedPost.author e)) ∧
      (EnrichedPost.avatar_url e = None ∨
       ∃ pr url, pr ∈ Db.profiles db ∧
                 Profile.id pr = PostRow.user_id (EnrichedPost.post e) ∧
                 Profile.avatar_url pr = Some url ∧ url ≠ "" ∧
                 EnrichedPost.avatar_url e = Some url) ∧
      ((∀ pr, pr ∈ Db.profiles db → Profile.id pr ≠ PostRow.user_id (EnrichedPost.post e)) →
       EnrichedPost.author e = "Unknown" ∧ EnrichedPost.avatar_url e = None).
Proof.
  intros Hsel. eexists. split; [rewrite get_api_posts_run, Hsel; reflexivity|].
  intros e (row & -> & Hrow)%list_elem_of_fmap. simpl.
  rewrite (order_Permutation _ _ _) in Hrow.
  apply list_elem_of_fmap in Hrow as (p & -> & Hp). simpl.
  unfold author_of, avatar_of, embed_profile, Store.eq_.
  destruct (filter (λ r, Profile.id r = Post.user_id p) (Db.profiles db))
    as [|pr prs] eqn:Hprs; simpl.
  { repeat split; auto; discriminate. }
  assert (Hpr : pr ∈ Db.profiles db ∧ Profile.id pr = Post.user_id p).
  { assert (pr ∈ filter (λ r, Profile.id r = Post.user_id p) (Db.profiles db)) as Hin
      by (rewrite Hprs; left).
    apply list_elem_of_filter in Hin. tauto. }
  destruct Hpr as [Hin Hid].
  split; [|split; [|split]].
  - destruct (Profile.username pr) as [[|c s]|]; simpl; discriminate.
  - destruct (Profile.username pr) as [[|c s]|] eqn:Hname; simpl; auto.
    right. exists pr. done.
  - destruct (Profile.avatar_url pr) as [[|c s]|] eqn:Hurl; simpl; auto.
    right. exists pr, (String c s). done.
  - intros Hnone. by destruct (Hnone pr Hin).
Qed.

Lemma feed_author_falls_back_witness :
  ∃ feed,
    get_api_posts env_ok ∅ db_two = (db_two, Res 200 (Feed feed)) ∧
    ∀ e, e ∈ feed → EnrichedPost.author e ≠ "".
Proof.
  destruct (feed_author_falls_back env_ok ∅ db_two eq_refl) as (feed & Hrun & Hfeed).
  exists feed. split; [exact Hrun|]. intros e He. exact (proj1 (Hfeed e He)).
Defined.

(** X18: the two read handlers agree: for a post of the feed, the comment_count
    shown is the number of comments the comment list returns for that post
    (both lookups being answered). *)
Theorem feed_comment_count_is_comment_list_length env req_query db :
  fails env SelectPosts = false →
  ∃ feed,
    get_api_posts env req_query db = (db, Res 200 (Feed feed)) ∧
    ∀ e, e ∈ feed →
      fails env (CountComments (PostRow.id (EnrichedPost.post e))) = false →
      fails env (SelectComments (PostRow.id (EnrichedPost.post e))) = false →
      ∃ cs,
        get_api_posts_id_comments env (PostRow.id (EnrichedPost.post e)) db
          = (db, Res 200 (Comments cs)) ∧
        EnrichedPost.comment_count e = length cs.
Proof.
  intros Hsel. eexists. split; [rewrite get_api_posts_run, Hsel; reflexivity|].
  intros e (row & -> & _)%list_elem_of_fmap Hcount Hlist. simpl in *.
  eexists. split; [rewrite get_api_posts_id_comments_run, Hlist; reflexivity|].
  rewrite Hcount, !length_fmap.
  by rewrite (Permutation_length (order_Permutation _ _ _)), length_fmap.
Qed.

Lemma feed_comment_count_is_comment_list_length_witness :
  ∃ feed,
    get_api_posts env_ok ∅ db_two = (db_two, Res 200 (Feed feed)) ∧
    ∀ e, e ∈ feed →
      ∃ cs,
        get_api_posts_id_comments env_ok (PostRow.id (EnrichedPost.post e)) db_two
          = (db_two, Res 200 (Comments cs)) ∧
        EnrichedPost.comment_count e = length cs.
Proof.
  destruct (feed_comment_count_is_comment_list_length env_ok ∅ db_two eq_refl)
    as (feed & Hrun & Hfeed).
  exists feed. split; [exact Hrun|]. intros e He. exact (Hfeed e He eq_refl eq_refl).
Defined.

Lemma post_api_posts_id_comments_string env user id s db :
  post_api_posts_id_comments env user id (JS.JStr s) db =
    if JS.is_empty (JS.trim s) then (db, Res 400 (Error "Comment content is required"))
    else if fails env (InsertComment id user)
    then (db, Res 500 (Error "Failed to add comment"))
    else
      let row := Comment.mk (Store.fresh_id (Comment.id <$> Db.comments db)) (JS.trim s)
                   (db_now env) user id in
      (Db.with_comments (Db.comments db ++ [row]) db,
       Res 201 (CommentJson (enrich_comment (comment_row db row)))).
Proof.
  unfold post_api_posts_id_comments, try_catch, bind, await. simpl.
  destruct s as [|c s]; [done|]. simpl JS.is_empty at 1. cbv [negb].
  destruct (JS.is_empty (JS.trim (String c s))); [done|].
  by destruct (fails env (InsertComment id user)).
Qed.

(** X19: a comment that was created can be read back: after a create answered
    201, the comment list of that post contains the very comment the create
    returned (content trimmed, the caller as user, the author joined from
    the caller's profile) and is one longer than before.  Nothing checks
    that the post exists. *)
Theorem created_comment_is_listed env user id s db :
  JS.trim s ≠ "" →
  fails env (InsertComment id user) = false →
  fails env (SelectComments id) = false →
  ∃ db' c cs0 cs1,
    get_api_posts_id_comments env id db = (db, Res 200 (Comments cs0)) ∧
    post_api_posts_id_comments env user id (JS.JStr s) db = (db', Res 201 (CommentJson c)) ∧
    get_api_posts_id_comments env id db' = (db', Res 200 (Comments cs1)) ∧
    c ∈ cs1 ∧ length cs1 = S (length cs0) ∧
    CommentRow.content (EnrichedComment.comment c) = JS.trim s ∧
    CommentRow.user_id (EnrichedComment.comment c) = user ∧
    EnrichedComment.author c = author_of (embed_profile db user).
Proof.
  intros Hs Hins Hsel.
  assert (He : JS.is_empty (JS.trim s) = false).
  { destruct (JS.is_empty (JS.trim s)) eqn:He; [by apply is_empty_spec in He|done]. }
  eexists _, _, _, _. split; [|split; [|split]].
  - rewrite get_api_posts_id_comments_run, Hsel. reflexivity.
  - rewrite post_api_posts_id_comments_string, He, Hins. reflexivity.
  - rewrite get_api_posts_id_comments_run, Hsel. reflexivity.
  - cbv zeta. unfold Db.with_comments.
    cbn [Db.comments Db.profiles Comment.post_id Comment.content Comment.user_id
         CommentRow.content CommentRow.user_id CommentRow.profiles comment_row enrich_comment
         EnrichedComment.comment EnrichedComment.author].
    unfold Store.eq_. rewrite filter_app, filter_cons_True, filter_nil by done.
    split; [|split; [|done]].
    + apply list_elem_of_fmap_2. rewrite (order_Permutation _ _ _).
      rewrite fmap_app. apply elem_of_app. right. left.
    + rewrite !length_fmap, !(Permutation_length (order_Permutation _ _ _)).
      rewrite !length_fmap, length_app. simpl. lia.
Qed.

Lemma created_comment_is_listed_witness :
  ∃ db' c cs0 cs1,
    get_api_posts_id_comments env_ok 2 db_two = (db_two, Res 200 (Comments cs0)) ∧
    post_api_posts_id_comments env_ok "B" 2 (JS.JStr " first! ") db_two
      = (db', Res 201 (CommentJson c)) ∧
    get_api_posts_id_comments env_ok 2 db' = (db', Res 200 (Comments cs1)) ∧
    c ∈ cs1 ∧ length cs1 = S (length cs0) ∧
    CommentRow.content (EnrichedComment.comment c) = "first!" ∧
    EnrichedComment.author c = "bob".
Proof.
  destruct (created_comment_is_listed env_ok "B" 2%N " first! " db_two)
    as (db' & c & cs0 & cs1 & H0 & Hc & H1 & Hin & Hlen & Hcontent & _ & Hauthor);
    [discriminate|reflexivity|reflexivity|].
  exists db', c, cs0, cs1.
  split; [exact H0|]. split; [exact Hc|]. split; [exact H1|]. split; [exact Hin|].
  split; [exact Hlen|]. split; [exact Hcontent|exact Hauthor].
Defined.

(** X16: a like shows in the next feed read: on a store that answers, after a
    user without a Like row on a post toggles it, the feed read with that
    user as [user_id] lists the same posts in the same order, the liked post
    now with liked_by_me true and its like_count one higher, every other
    post with its like_count and liked_by_me as before, and all comment
    counts as before. *)
Theorem like_shows_in_feed env user post req_query db :
  (∀ c, fails env c = false) →
  (∀ l, l ∈ Db.likes db → ¬ (Like.post_id l = post ∧ Like.user_id l = user)) →
  req_query !! "user_id" = Some user → user ≠ "" →
  ∃ db1 feed0 feed1,
    get_api_posts env req_query db = (db, Res 200 (Feed feed0)) ∧
    post_api_posts_id_like env user post db = (db1, Res 200 (Liked true)) ∧
    get_api_posts env req_query db1 = (db1, Res 200 (Feed feed1)) ∧
    Forall2 (λ e0 e1,
               EnrichedPost.post e1 = EnrichedPost.post e0 ∧
               EnrichedPost.comment_count e1 = EnrichedPost.comment_count e0 ∧
               if decide (PostRow.id (EnrichedPost.post e0) = post)
               then EnrichedPost.liked_by_me e0 = false ∧
                    EnrichedPost.liked_by_me e1 = true ∧
                    EnrichedPost.like_count e1 = S (EnrichedPost.like_count e0)
               else EnrichedPost.liked_by_me e1 = EnrichedPost.liked_by_me e0 ∧
                    EnrichedPost.like_count e1 = EnrichedPost.like_count e0)
      feed0 feed1.
Proof.
  intros Hok Hnone Hquery Huser.
  set (row := Like.mk (Store.fresh_id (Like.id <$> Db.likes db)) post user).
  set (db1 := Db.with_likes (Db.likes db ++ [row]) db).
  assert (Hviewer : currentUserId req_query = Some user).
  { unfold currentUserId, or_null. unfold user_id in Hquery. rewrite Hquery. by destruct user. }
  exists db1, (enriched_post env (Some user) db
                 <$> Store.order PostRow.created_at false (post_row db <$> Db.posts db)),
         (enriched_post env (Some user) db1
                 <$> Store.order PostRow.created_at false (post_row db <$> Db.posts db)).
  split; [by rewrite get_api_posts_run, Hok, Hviewer|].
  split; [by rewrite like_toggle_run, !Hok, (likes_of_nil post user db Hnone)|].
  split; [by rewrite get_api_posts_run, Hok, Hviewer|].
  apply Forall2_fmap, Forall_Forall2_diag, Forall_forall. intros p _.
  unfold enriched_post. rewrite !Hok.
  cbn [EnrichedPost.post EnrichedPost.comment_count EnrichedPost.liked_by_me
       EnrichedPost.like_count db1 Db.with_likes Db.likes Db.comments].
  split; [done|]. split; [done|].
  rewrite !filter_app.
  destruct (decide (PostRow.id p = post)) as [Hp|Hp].
  - rewrite (filter_cons_True (λ l, Like.post_id l = PostRow.id p) row) by done.
    rewrite filter_nil, (filter_cons_True (λ l, Like.user_id l = user) row) by done.
    rewrite filter_nil.
    assert (Hnil : filter (λ l, Like.user_id l = user)
                     (filter (λ l, Like.post_id l = PostRow.id p) (Db.likes db)) = []).
    { rewrite Hp. fold (Store.eq_ Like.post_id post (Db.likes db)).
      fold (Store.eq_ Like.user_id user (Store.eq_ Like.post_id post (Db.likes db))).
      rewrite select_like_rows. by apply likes_of_nil. }
    rewrite Hnil. split; [done|]. split; [done|].
    rewrite length_app. simpl. lia.
  - rewrite (filter_cons_False (λ l, Like.post_id l = PostRow.id p) row)
      by (simpl; congruence).
    by rewrite !filter_nil, !app_nil_r.
Qed.

Lemma like_shows_in_feed_witness :
  ∃ db1 feed0 feed1,
    get_api_posts env_ok {["user_id" := "B"]} db_two = (db_two, Res 200 (Feed feed0)) ∧
    post_api_posts_id_like env_ok "B" 1 db_two = (db1, Res 200 (Liked true)) ∧
    get_api_posts env_ok {["user_id" := "B"]} db1 = (db1, Res 200 (Feed feed1)) ∧
    length feed1 = length feed0.
Proof.
  destruct (like_shows_in_feed env_ok "B" 1%N {["user_id" := "B"]} db_two)
    as (db1 & feed0 & feed1 & H0 & Hlike & H1 & Hrel).
  - intros c. reflexivity.
  - intros l Hl. simpl in Hl. by apply not_elem_of_nil in Hl.
  - reflexivity.
  - discriminate.
  - exists db1, feed0, feed1. split; [exact H0|]. split; [exact Hlike|].
    split; [exact H1|]. symmetry. exact (Forall2_length _ _ _ Hrel).
Defined.

(** ** Reading never writes *)

(** X21: the feed, the comment list and the profile handler never change the
    store, whatever the request and whichever lookups the store fails. *)
Theorem read_handlers_leave_store env req_query id select_fails user db :
  (get_api_posts env req_query db).1 = db ∧
  (get_api_posts_id_comments env id db).1 = db ∧
  (get_api_profile select_fails user db).1 = db.
Proof.
  rewrite get_api_posts_run, get_api_posts_id_comments_run. split; [done|]. split; [done|].
  unfold get_api_profile, bind.
  destruct select_fails; simpl; [done|].
  by destruct (Store.single _) as [d [e|] n].
Qed.

(** ** The profile *)

(** X22: GET /api/profile answers 200 only with the one profile row whose id is
    the caller's; when the select fails, or the caller has no profile row
    (or several), it answers 500 "Failed to fetch profile", not 404. *)
Theorem profile_is_own_or_500 select_fails user db :
  (∃ pr,
     select_fails = false ∧
     filter (λ pr, Profile.id pr = user) (Db.profiles db) = [pr] ∧
     pr ∈ Db.profiles db ∧ Profile.id pr = user ∧
     get_api_profile select_fails user db = (db, ProfileRes 200 (ProfileJson (Some pr)))) ∨
  ((select_fails = true ∨
    length (filter (λ pr, Profile.id pr = user) (Db.profiles db)) ≠ 1%nat) ∧
   get_api_profile select_fails user db
     = (db, ProfileRes 500 (ProfileError "Failed to fetch profile"))).
Proof.
  unfold get_api_profile, bind, Store.eq_.
  destruct select_fails; simpl; [right; auto|].
  destruct (filter (λ pr, Profile.id pr = user) (Db.profiles db))
    as [|pr [|pr' prs]] eqn:Hrows; simpl.
  - right. split; [right; lia|done].
  - left. exists pr.
    assert (pr ∈ filter (λ pr, Profile.id pr = user) (Db.profiles db)) as Hin
      by (rewrite Hrows; left).
    apply list_elem_of_filter in Hin as [Hid Hin]. done.
  - right. split; [right; lia|done].
Qed.

(** ** More on uploads and comments *)



(** X20: a comment is refused with 400 "Comment content is required" exactly
    when its content is falsy or a string of white space only; the store is
    then left as it is. *)
Theorem comment_requires_content env user id content db :
  (JS.truthy content = false ∨ ∃ s, content = JS.JStr s ∧ JS.trim s = "") ↔
  post_api_posts_id_comments env user id content db
    = (db, Res 400 (Error "Comment content is required")).
Proof.
  split.
  - intros [Hfalsy|(s & -> & Hblank)].
    + unfold post_api_posts_id_comments, try_catch. by rewrite Hfalsy.
    + rewrite post_api_posts_id_comments_string, Hblank. reflexivity.
  - destruct content as [| |b|z|s|]; simpl.
    + by left.
    + by left.
    + destruct b; [|by left]. discriminate.
    + destruct (z =? 0)%Z eqn:Hz; [by left|].
      unfold post_api_posts_id_comments, try_catch; simpl. rewrite Hz. discriminate.
    + rewrite post_api_posts_id_comments_string.
      destruct (JS.is_empty (JS.trim s)) eqn:Hs.
      * intros _. right. exists s. split; [done|]. by apply is_empty_spec.
      * destruct (fails env (InsertComment id user)); discriminate.
    + discriminate.
Qed.

Lemma comment_requires_content_witness :
  post_api_posts_id_comments env_ok "B" 1 (JS.JStr "   ") db_two
    = (db_two, Res 400 (Error "Comment content is required")).
Proof.
  apply (proj1 (comment_requires_content env_ok "B" 1%N (JS.JStr "   ") db_two)).
  right. exists "   ". split; reflexivity.
Defined.

Lemma create_requires_content_witness :
  post_api_posts env_ok "A" (JS.JStr "   ") db_two
    = (db_two, Res 400 (Error "Content is required")).
Proof.
  apply (proj1 (create_requires_content env_ok "A" (JS.JStr "   ") db_two)).
  right. exists "   ". split; reflexivity.
Defined.
